(** * wiki-bot: the retrieval-and-synthesis pipeline

    A shallow embedding of [src/notion.service.ts] (the block flattener
    [extractBlockContent] and the document selector [searchNotion]), of
    [src/claude.service.ts] (the synthesizer [generateAnswer]) and of the
    two Slack listeners of [src/index.ts].

    JavaScript strings are sequences of UTF-16 code units, so [trim], [slice]
    and [length] are modelled on lists of code units.  The Notion and
    Anthropic clients are capability records; every call to them, and every
    console line, is recorded in the trace a computation returns next to
    its outcome. *)

From Stdlib Require Import List NArith Arith Bool Lia.
From Stdlib.Strings Require Import String Ascii Byte.
Import ListNotations.

Set Implicit Arguments.

(** ** JavaScript strings *)

Module JS.

Definition jsstring := list N.

Definition eqb (a b : jsstring) : bool :=
  if list_eq_dec N.eq_dec a b then true else false.

(* Code points of a UTF-8 byte sequence (the encoding of this file's
   literals); a truncated tail is dropped. *)
Fixpoint utf8_decode (bs : list N) : list N :=
  match bs with
  | [] => []
  | b0 :: t0 =>
      if (b0 <? 0x80)%N then b0 :: utf8_decode t0
      else match t0 with
      | [] => []
      | b1 :: t1 =>
          if (b0 <? 0xE0)%N then
            ((b0 mod 0x20) * 0x40 + b1 mod 0x40)%N :: utf8_decode t1
          else match t1 with
          | [] => []
          | b2 :: t2 =>
              if (b0 <? 0xF0)%N then
                ((b0 mod 0x10) * 0x1000 + (b1 mod 0x40) * 0x40
                 + b2 mod 0x40)%N :: utf8_decode t2
              else match t2 with
              | [] => []
              | b3 :: t3 =>
                  ((b0 mod 0x08) * 0x40000 + (b1 mod 0x40) * 0x1000
                   + (b2 mod 0x40) * 0x40 + b3 mod 0x40)%N :: utf8_decode t3
              end
          end
      end
  end.

(* UTF-16: a code point above the basic plane is a surrogate pair. *)
Definition utf16_encode (cp : N) : list N :=
  if (cp <? 0x10000)%N then [cp]
  else [(0xD800 + (cp - 0x10000) / 0x400)%N;
        (0xDC00 + (cp - 0x10000) mod 0x400)%N].

(* The JavaScript value of a string literal of the source. *)
Definition js (s : string) : jsstring :=
  flat_map utf16_encode
    (utf8_decode (map Byte.to_N (list_byte_of_string s))).

Definition LF : jsstring := [10%N].
Definition dquote : jsstring := [34%N].

(* Truthiness of a string: [if (s)], [Boolean(s)]. *)
Definition truthy (s : jsstring) : bool :=
  match s with [] => false | _ :: _ => true end.

(* WhiteSpace and LineTerminator code points, the ones [trim] strips. *)
Definition is_white_space (c : N) : bool :=
  ((9 <=? c) && (c <=? 13) || (c =? 0x20) || (c =? 0xA0) || (c =? 0x1680)
   || (0x2000 <=? c) && (c <=? 0x200A) || (c =? 0x2028) || (c =? 0x2029)
   || (c =? 0x202F) || (c =? 0x205F) || (c =? 0x3000) || (c =? 0xFEFF))%N.

Fixpoint trimStart (s : jsstring) : jsstring :=
  match s with
  | c :: s' => if is_white_space c then trimStart s' else s
  | [] => []
  end.

Definition trimEnd (s : jsstring) : jsstring := List.rev (trimStart (List.rev s)).

Definition trim (s : jsstring) : jsstring := trimEnd (trimStart s).

(* [s.slice(0, n)] *)
Definition slice0 (n : nat) (s : jsstring) : jsstring := firstn n s.

(* [parts.join(sep)] *)
Fixpoint join (sep : jsstring) (parts : list jsstring) : jsstring :=
  match parts with
  | [] => []
  | [p] => p
  | p :: rest => p ++ sep ++ join sep rest
  end.

(* [s.replace(/c/g, '')] for a one-character pattern. *)
Definition remove_all (c : N) (s : jsstring) : jsstring :=
  filter (fun x => negb (x =? c)%N) s.

Fixpoint uint_digits (d : Decimal.uint) : jsstring :=
  match d with
  | Decimal.Nil => []
  | Decimal.D0 d => 48%N :: uint_digits d
  | Decimal.D1 d => 49%N :: uint_digits d
  | Decimal.D2 d => 50%N :: uint_digits d
  | Decimal.D3 d => 51%N :: uint_digits d
  | Decimal.D4 d => 52%N :: uint_digits d
  | Decimal.D5 d => 53%N :: uint_digits d
  | Decimal.D6 d => 54%N :: uint_digits d
  | Decimal.D7 d => 55%N :: uint_digits d
  | Decimal.D8 d => 56%N :: uint_digits d
  | Decimal.D9 d => 57%N :: uint_digits d
  end.

(* [String(n)] of a non-negative integer. *)
Definition of_nat (n : nat) : jsstring := uint_digits (Nat.to_uint n).

(* [arr.map((x, i) => f(x, i))] *)
Fixpoint mapi_from {A B : Type} (i : nat) (f : A -> nat -> B) (l : list A)
  : list B :=
  match l with
  | [] => []
  | x :: l' => f x i :: mapi_from (S i) f l'
  end.

Definition mapi {A B : Type} (f : A -> nat -> B) (l : list A) : list B :=
  mapi_from 0 f l.

End JS.

Import JS.


(** ** Data of the Notion and Anthropic clients *)

(* RichTextItemResponse: only [plain_text] is read. *)
Record RichTextItemResponse := { plain_text : jsstring }.

(* BlockObjectResponse, by its [type] tag; [unsupported] stands for every
   tag the switch of [extractBlockContent] has no case for. *)
Inductive BlockType :=
| paragraph (rich_text : list RichTextItemResponse)
| heading_1 (rich_text : list RichTextItemResponse)
| heading_2 (rich_text : list RichTextItemResponse)
| heading_3 (rich_text : list RichTextItemResponse)
| bulleted_list_item (rich_text : list RichTextItemResponse)
| numbered_list_item (rich_text : list RichTextItemResponse)
| to_do (rich_text : list RichTextItemResponse) (checked : bool)
| toggle (rich_text : list RichTextItemResponse)
| quote (rich_text : list RichTextItemResponse)
| callout (rich_text : list RichTextItemResponse)
| code (rich_text : list RichTextItemResponse) (language : jsstring)
| table_row (cells : list (list RichTextItemResponse))
| divider
| unsupported (tag : jsstring).

Record BlockObjectResponse := {
  block_id : jsstring;
  has_children : bool;
  block_type : BlockType
}.

(* An element of [response.results]: a partial block has no [type]. *)
Inductive BlockResult :=
| PartialBlock (id : jsstring)
| FullBlock (b : BlockObjectResponse).

Inductive Parent :=
| database_id (database : jsstring)
| page_id (page : jsstring)
| block_parent (block : jsstring)
| workspace.

Inductive Property :=
| title_property (title : list RichTextItemResponse)
| other_property (tag : jsstring).

(* [properties] keeps the insertion order [Object.values] follows. *)
Record PageObjectResponse := {
  page_id_of : jsstring;
  page_url : jsstring;
  parent : Parent;
  properties : list (jsstring * Property)
}.

(* An element of the search results; [isFullPage] tells them apart. *)
Inductive SearchResult :=
| FullPage (p : PageObjectResponse)
| PartialPage (id : jsstring).

Definition isFullPage (r : SearchResult) : bool :=
  match r with FullPage _ => true | PartialPage _ => false end.

Definition result_id (r : SearchResult) : jsstring :=
  match r with FullPage p => page_id_of p | PartialPage id => id end.

Record NotionPage := {
  id : jsstring;
  title : jsstring;
  url : jsstring;
  content : jsstring
}.

Record MessageCreateParams := {
  model : jsstring;
  max_tokens : nat;
  system : jsstring;
  user_content : jsstring
}.

Inductive ContentBlock :=
| text_block (text : jsstring)
| other_block (tag : jsstring).

(* A thrown value (a rejected promise). *)
Definition error := jsstring.

(* The three capabilities; each call answers or throws. *)
Record Notion := {
  blocks_children_list : jsstring -> error + list BlockResult;
  search : jsstring -> error + list SearchResult
}.

Record Anthropic := {
  messages_create : MessageCreateParams -> error + list ContentBlock
}.

(** ** Effects *)

Inductive event :=
| BlocksChildrenList (block : jsstring) (page_size : nat)
| Search (query : jsstring) (page_size : nat)
| MessagesCreate (params : MessageCreateParams)
| ConsoleLog (line : jsstring)
| ConsoleError (line : jsstring) (err : error).

Inductive outcome (A : Type) :=
| Returned (a : A)
| Thrown (e : error)
| OutOfFuel.

Arguments Thrown {A} e.
Arguments OutOfFuel {A}.

(* A computation: its outcome and the calls and console lines it made. *)
Definition M (A : Type) : Type := outcome A * list event.

Definition ret {A} (a : A) : M A := (Returned a, []).

Definition bind {A B} (m : M A) (f : A -> M B) : M B :=
  match m with
  | (Returned a, w) => let (r, w') := f a in (r, w ++ w')
  | (Thrown e, w) => (Thrown e, w)
  | (OutOfFuel, w) => (OutOfFuel, w)
  end.

Definition emit (ev : event) : M unit := (Returned tt, [ev]).

Definition out_of_fuel {A} : M A := (OutOfFuel, []).

(* [await call], the event recorded first. *)
Definition await {A} (ev : event) (answer : error + A) : M A :=
  match answer with
  | inr a => (Returned a, [ev])
  | inl e => (Thrown e, [ev])
  end.

(* [try { m } catch (err) { handler(err) }] *)
Definition try_catch {A} (m : M A) (handler : error -> M A) : M A :=
  match m with
  | (Thrown e, w) => let (r, w') := handler e in (r, w ++ w')
  | other => other
  end.

Notation "x <- m ;; k" := (bind m (fun x => k))
  (at level 100, m at next level, right associativity).
Notation "m ;; k" := (bind m (fun _ => k))
  (at level 100, right associativity).

(** ** notion.service.ts *)

Definition extractRichText (richText : list RichTextItemResponse) : jsstring :=
  join [] (map plain_text richText).

Definition extractPageTitle (page : PageObjectResponse) : jsstring :=
  let titleProp :=
    find (fun prop => match prop with title_property _ => true | _ => false end)
         (map snd (properties page)) in
  match titleProp with
  | Some (title_property t) => extractRichText t
  | _ => js "Sin título"
  end.

(* The switch over [b.type]: the text of one block. *)
Definition block_text (b : BlockObjectResponse) : jsstring :=
  match block_type b with
  | paragraph rt => extractRichText rt
  | heading_1 rt => js "# " ++ extractRichText rt
  | heading_2 rt => js "## " ++ extractRichText rt
  | heading_3 rt => js "### " ++ extractRichText rt
  | bulleted_list_item rt => js "• " ++ extractRichText rt
  | numbered_list_item rt => extractRichText rt
  | to_do rt checked =>
      let done := if checked then js "✓" else js "○" in
      done ++ js " " ++ extractRichText rt
  | toggle rt => extractRichText rt
  | quote rt => js "> " ++ extractRichText rt
  | callout rt => js "📌 " ++ extractRichText rt
  | code rt language =>
      js "```" ++ language ++ LF ++ extractRichText rt ++ LF ++ js "```"
  | table_row cells => join (js " | ") (map extractRichText cells)
  | divider => js "---"
  | unsupported _ => []
  end.

Section Flattener.

Variable notion : Notion.

(* The [for] loop of [extractBlockContent] over [response.results], [lines]
   passed along; [self] is the recursive call. *)
Fixpoint extractBlockContent_loop (self : jsstring -> nat -> M jsstring)
    (depth : nat) (results : list BlockResult) (lines : list jsstring)
  : M (list jsstring) :=
  match results with
  | [] => ret lines
  | PartialBlock _ :: rest => extractBlockContent_loop self depth rest lines
  | FullBlock b :: rest =>
      let text := block_text b in
      let lines := if truthy (trim text) then lines ++ [text] else lines in
      if has_children b && (depth <? 2) then
        childContent <- self (block_id b) (depth + 1) ;;
        extractBlockContent_loop self depth rest
          (if truthy childContent then lines ++ [childContent] else lines)
      else extractBlockContent_loop self depth rest lines
  end.

Definition extractBlockContent_body (self : jsstring -> nat -> M jsstring)
    (blockId : jsstring) (depth : nat) : M jsstring :=
  if 3 <? depth then ret []
  else
    results <- await (BlocksChildrenList blockId 50)
                     (blocks_children_list notion blockId) ;;
    lines <- extractBlockContent_loop self depth results [] ;;
    ret (join LF (filter truthy lines)).

(* The recursion, unfolded [fuel] levels deep. *)
Fixpoint extractBlockContent_fuel (fuel : nat) (blockId : jsstring)
    (depth : nat) : M jsstring :=
  match fuel with
  | O => out_of_fuel
  | S fuel' =>
      extractBlockContent_body (extractBlockContent_fuel fuel') blockId depth
  end.

(* Three levels are all the depth counter allows below depth 0
   ([extractBlockContent_fuel_enough]). *)
Definition extractBlockContent (blockId : jsstring) (depth : nat)
  : M jsstring :=
  extractBlockContent_fuel 3 blockId depth.

End Flattener.

Definition normalizeId (id : jsstring) : jsstring := remove_all 45%N id.

(* [process.env]: a variable is a string or undefined. *)
Record Env := { NOTION_DATABASE_ID : option jsstring }.

(* The callback of [response.results.filter] when a database is configured. *)
Definition in_database (databaseId : jsstring) (result : SearchResult) : bool :=
  match result with
  | PartialPage _ => false
  | FullPage p =>
      match parent p with
      | database_id d => eqb (normalizeId d) (normalizeId databaseId)
      | _ => false
      end
  end.

(* [databaseId ? response.results.filter(...) : response.results]: an unset
   or empty variable is falsy. *)
Definition filter_by_database (databaseId : option jsstring)
    (results : list SearchResult) : list SearchResult :=
  match databaseId with
  | Some d => if truthy d then filter (in_database d) results else results
  | None => results
  end.

Section Selector.

Variable env : Env.
Variable notion : Notion.

(* The [for] loop of [searchNotion] over [filtered.slice(0, 5)], [pages]
   passed along. *)
Fixpoint searchNotion_loop (results : list SearchResult)
    (pages : list NotionPage) : M (list NotionPage) :=
  match results with
  | [] => ret pages
  | PartialPage _ :: rest => searchNotion_loop rest pages
  | FullPage result :: rest =>
      pages <- try_catch
        (let title := extractPageTitle result in
         content <- extractBlockContent notion (page_id_of result) 0 ;;
         if truthy (trim content) then
           emit (ConsoleLog
                   (js "[Notion] Página añadida: " ++ dquote ++ title
                    ++ dquote ++ js " (" ++ of_nat (List.length content)
                    ++ js " chars)")) ;;
           ret (pages ++ [{| id := page_id_of result;
                             title := title;
                             url := page_url result;
                             content := slice0 3000 content |}])
         else ret pages)
        (fun err =>
           emit (ConsoleError
                   (js "[Notion] Error procesando página "
                    ++ page_id_of result ++ js ":") err) ;;
           ret pages) ;;
      searchNotion_loop rest pages
  end.

Definition searchNotion (query : jsstring) : M (list NotionPage) :=
  let databaseId := NOTION_DATABASE_ID env in
  emit (ConsoleLog
          (js "[Notion] Buscando: " ++ dquote ++ query ++ dquote
           ++ match databaseId with
              | Some d =>
                  if truthy d then js " (database: " ++ d ++ js ")" else []
              | None => []
              end)) ;;
  results <- await (Search query 20) (search notion query) ;;
  let filtered := filter_by_database databaseId results in
  emit (ConsoleLog
          (js "[Notion] Resultados: " ++ of_nat (List.length results)
           ++ js " totales, " ++ of_nat (List.length filtered)
           ++ js " en el database")) ;;
  searchNotion_loop (firstn 5 filtered) [].

End Selector.

(** ** claude.service.ts *)

Definition SYSTEM_PROMPT : jsstring :=
  js "Eres un asistente interno de empresa. Tu función es responder preguntas del equipo usando únicamente la información del wiki de Notion que se te proporcionará como contexto."
  ++ LF ++ LF
  ++ js "Reglas:" ++ LF
  ++ js "- Responde SIEMPRE en español" ++ LF
  ++ js "- Basa tus respuestas EXCLUSIVAMENTE en el contexto de Notion proporcionado" ++ LF
  ++ js "- Si el contexto no tiene suficiente información, dilo claramente en lugar de inventar" ++ LF
  ++ js "- Sé conciso y directo, pero completo" ++ LF
  ++ js "- Usa formato Markdown: negritas, listas, etc. cuando mejore la legibilidad" ++ LF
  ++ js "- Al final de cada respuesta, incluye las fuentes con este formato exacto:" ++ LF
  ++ js "  📚 *Fuente(s):* <URL_1|Nombre_Página_1>, <URL_2|Nombre_Página_2>" ++ LF
  ++ js "  (usa formato de enlace de Slack: <url|texto>)" ++ LF
  ++ js "- Si hay varias páginas relevantes, menciona cuál sección responde qué parte".

(* The text returned when no page was selected. *)
Definition NO_INFORMATION : jsstring :=
  js "❌ No encontré información relevante en el wiki de Notion para tu pregunta."
  ++ LF ++ LF
  ++ js "Intenta reformularla, usa términos más específicos, o revisa directamente en Notion.".

Definition NO_ANSWER : jsstring :=
  js "⚠️ No se pudo generar una respuesta. Intenta de nuevo.".

(* The argument of [join] in [generateAnswer]: what separates two pages. *)
Definition PAGE_SEPARATOR : jsstring := LF ++ LF ++ js "---" ++ LF ++ LF.

(* The callback of [notionPages.map]: one page of the context. *)
Definition page_context (page : NotionPage) (i : nat) : jsstring :=
  js "[PÁGINA " ++ of_nat (i + 1) ++ js ": " ++ dquote ++ title page ++ dquote
  ++ js "]" ++ LF ++ js "URL: " ++ url page ++ LF ++ LF ++ content page.

Definition contextText (notionPages : list NotionPage) : jsstring :=
  join PAGE_SEPARATOR (mapi page_context notionPages).

Definition userMessage (query : jsstring) (notionPages : list NotionPage)
  : jsstring :=
  js "Contexto del wiki de Notion:" ++ LF ++ LF ++ contextText notionPages
  ++ LF ++ LF ++ js "---" ++ LF ++ LF ++ js "Pregunta: " ++ query.

Section Synthesizer.

Variable anthropic : Anthropic.

Definition generateAnswer (query : jsstring) (notionPages : list NotionPage)
  : M jsstring :=
  if List.length notionPages =? 0 then ret NO_INFORMATION
  else
    emit (ConsoleLog
            (js "[Claude] Generando respuesta con "
             ++ of_nat (List.length notionPages) ++ js " páginas de contexto")) ;;
    let params := {| model := js "claude-sonnet-4-6";
                     max_tokens := 1024;
                     system := SYSTEM_PROMPT;
                     user_content := userMessage query notionPages |} in
    response <- await (MessagesCreate params)
                      (messages_create anthropic params) ;;
    let textBlock :=
      find (fun b => match b with text_block _ => true | _ => false end)
           response in
    ret match textBlock with
        | Some (text_block t) => t
        | _ => NO_ANSWER
        end.

End Synthesizer.

(** ** index.ts *)

(* [text.replace(/<@[A-Z0-9]+>/g, '')]: the class of the pattern. *)
Definition is_mention_char (c : N) : bool :=
  ((65 <=? c) && (c <=? 90) || (48 <=? c) && (c <=? 57))%N.

(* The length of the longest run of class characters at the start. *)
Fixpoint class_run (s : jsstring) : nat :=
  match s with
  | c :: s' => if is_mention_char c then S (class_run s') else 0
  | [] => 0
  end.

(* The length of the match of [<@[A-Z0-9]+>] at the start of [s], if it
   matches there: the run is greedy and must be followed by [>]. *)
Definition mention_length (s : jsstring) : option nat :=
  match s with
  | lt :: at_ :: t =>
      if ((lt =? 60) && (at_ =? 64))%N then
        let n := class_run t in
        match n, nth_error t n with
        | S _, Some gt => if (gt =? 62)%N then Some (n + 3) else None
        | _, _ => None
        end
      else None
  | _ => None
  end.

(* The global replace by the empty string, left to right: [skip] is what
   is left of the match being dropped. *)
Fixpoint replace_mentions_from (skip : nat) (s : jsstring) : jsstring :=
  match s with
  | [] => []
  | c :: s' =>
      match skip with
      | S k => replace_mentions_from k s'
      | O =>
          match mention_length s with
          | Some n => replace_mentions_from (n - 1) s'
          | None => c :: replace_mentions_from 0 s'
          end
      end
  end.

Definition replace_mentions (s : jsstring) : jsstring :=
  replace_mentions_from 0 s.

(* The arguments of the Slack calls the handlers make. *)
Record SayArguments := {
  say_text : jsstring;
  say_thread_ts : jsstring
}.

Record ReactionArguments := {
  reaction_channel : jsstring;
  reaction_timestamp : jsstring;
  reaction_name : jsstring
}.

Record RespondArguments := {
  response_type : jsstring;
  respond_text : jsstring
}.

Record PostMessageArguments := {
  post_channel : jsstring;
  post_text : jsstring;
  mrkdwn : bool
}.

(* The Slack capabilities of a handler; each call answers or throws. *)
Record Slack := {
  say : SayArguments -> error + unit;
  reactions_add : ReactionArguments -> error + unit;
  reactions_remove : ReactionArguments -> error + unit;
  ack : error + unit;
  respond : RespondArguments -> error + unit;
  chat_postMessage : PostMessageArguments -> error + unit
}.

(* The [app_mention] event: [thread_ts] may be missing ([None]), or
   present and undefined ([Some None]). *)
Record AppMentionEvent := {
  event_text : jsstring;
  event_ts : jsstring;
  event_channel : jsstring;
  event_thread_ts : option (option jsstring)
}.

Record SlashCommand := {
  command_text : jsstring;
  user_name : jsstring;
  user_id : jsstring;
  channel_id : jsstring
}.

(* What a handler does: the events of the two services, and its own
   Slack calls. *)
Inductive handler_event :=
| Service (ev : event)
| Say (args : SayArguments)
| ReactionsAdd (args : ReactionArguments)
| ReactionsRemove (args : ReactionArguments)
| Ack
| Respond (args : RespondArguments)
| PostMessage (args : PostMessageArguments).

Definition H (A : Type) : Type := outcome A * list handler_event.

Definition hret {A} (a : A) : H A := (Returned a, []).

Definition hbind {A B} (m : H A) (f : A -> H B) : H B :=
  match m with
  | (Returned a, w) => let (r, w') := f a in (r, w ++ w')
  | (Thrown e, w) => (Thrown e, w)
  | (OutOfFuel, w) => (OutOfFuel, w)
  end.

(* A computation of the services, run inside a handler. *)
Definition lift {A} (m : M A) : H A := (fst m, map Service (snd m)).

(* [await call], the event recorded first. *)
Definition call {A} (ev : handler_event) (answer : error + A) : H A :=
  match answer with
  | inr a => (Returned a, [ev])
  | inl e => (Thrown e, [ev])
  end.

(* [promise.catch(() => {})] *)
Definition swallow (m : H unit) : H unit :=
  match m with
  | (Thrown _, w) => (Returned tt, w)
  | other => other
  end.

(* [try { m } catch (error) { handler(error) }] *)
Definition htry_catch {A} (m : H A) (handler : error -> H A) : H A :=
  match m with
  | (Thrown e, w) => let (r, w') := handler e in (r, w ++ w')
  | other => other
  end.

(* [try { m } finally { cleanup }]: the cleanup runs whether [m] returned
   or threw, and its own error, if any, replaces the outcome of [m]. *)
Definition hfinally {A} (m : H A) (cleanup : H unit) : H A :=
  match m with
  | (OutOfFuel, w) => (OutOfFuel, w)
  | (r, w) =>
      match cleanup with
      | (Returned _, w') => (r, w ++ w')
      | (Thrown e, w') => (Thrown e, w ++ w')
      | (OutOfFuel, w') => (OutOfFuel, w ++ w')
      end
  end.

Notation "x <~ m ;; k" := (hbind m (fun x => k))
  (at level 100, m at next level, right associativity).
Notation "m ;;; k" := (hbind m (fun _ => k))
  (at level 100, right associativity).

Definition MENTION_HELP : jsstring :=
  js "¡Hola! Mencióname con una pregunta y buscaré en el wiki de Notion. Ejemplo:"
  ++ LF ++ js "`@WikiBot ¿Cuál es nuestra política de vacaciones?`".

Definition COMMAND_HELP : jsstring :=
  js "⚠️ Incluye una pregunta. Ejemplo:"
  ++ LF ++ js "`/wiki ¿Cuál es nuestra política de vacaciones?`".

Definition ERROR_TEXT : jsstring :=
  js "❌ Ocurrió un error al procesar tu consulta. Por favor intenta de nuevo.".

Section Handlers.

Variable env : Env.
Variable notion : Notion.
Variable anthropic : Anthropic.
Variable slack : Slack.

Definition thinking_face (event : AppMentionEvent) : ReactionArguments :=
  {| reaction_channel := event_channel event;
     reaction_timestamp := event_ts event;
     reaction_name := js "thinking_face" |}.

(* The [try] block of the [app_mention] listener. *)
Definition mention_try (event : AppMentionEvent) (query : jsstring) : H unit :=
  lift (emit (ConsoleLog (LF ++ js "[app_mention] Query: " ++ dquote
                          ++ query ++ dquote))) ;;;
  notionPages <~ lift (searchNotion env notion query) ;;
  answer <~ lift (generateAnswer anthropic query notionPages) ;;
  let threadTs :=
    match event_thread_ts event with
    | Some thread_ts => thread_ts
    | None => Some (event_ts event)
    end in
  let args :=
    {| say_text := answer;
       say_thread_ts := match threadTs with
                        | Some t => t
                        | None => event_ts event
                        end |} in
  call (Say args) (say slack args).

(* Its [catch] block. *)
Definition mention_catch (event : AppMentionEvent) (error : error) : H unit :=
  lift (emit (ConsoleError (js "[app_mention] Error:") error)) ;;;
  let args := {| say_text := ERROR_TEXT; say_thread_ts := event_ts event |} in
  call (Say args) (say slack args).

(* The listener of [app.event('app_mention', ...)]. *)
Definition app_mention (event : AppMentionEvent) : H unit :=
  let query := trim (replace_mentions (event_text event)) in
  if negb (truthy query) then
    let args := {| say_text := MENTION_HELP;
                   say_thread_ts := event_ts event |} in
    call (Say args) (say slack args)
  else
    swallow (call (ReactionsAdd (thinking_face event))
                  (reactions_add slack (thinking_face event))) ;;;
    hfinally
      (htry_catch (mention_try event query) (mention_catch event))
      (swallow (call (ReactionsRemove (thinking_face event))
                     (reactions_remove slack (thinking_face event)))).

(* The [try] block of the [/wiki] listener. *)
Definition wiki_try (command : SlashCommand) (query : jsstring) : H unit :=
  lift (emit (ConsoleLog (LF ++ js "[/wiki] Query: " ++ dquote ++ query
                          ++ dquote ++ js " (usuario: "
                          ++ user_name command ++ js ")"))) ;;;
  notionPages <~ lift (searchNotion env notion query) ;;
  answer <~ lift (generateAnswer anthropic query notionPages) ;;
  let args :=
    {| post_channel := channel_id command;
       post_text := js "*<@" ++ user_id command ++ js "> preguntó:* "
                    ++ query ++ LF ++ LF ++ answer;
       mrkdwn := true |} in
  call (PostMessage args) (chat_postMessage slack args).

(* Its [catch] block. *)
Definition wiki_catch (error : error) : H unit :=
  lift (emit (ConsoleError (js "[/wiki] Error:") error)) ;;;
  let args := {| response_type := js "ephemeral";
                 respond_text := ERROR_TEXT |} in
  call (Respond args) (respond slack args).

(* The listener of [app.command('/wiki', ...)]. *)
Definition wiki_command (command : SlashCommand) : H unit :=
  call Ack (ack slack) ;;;
  let query := trim (command_text command) in
  if negb (truthy query) then
    let args := {| response_type := js "ephemeral";
                   respond_text := COMMAND_HELP |} in
    call (Respond args) (respond slack args)
  else htry_catch (wiki_try command query) wiki_catch.

End Handlers.

(** ** Definitions the statements use *)

(* The number of block-children fetches in a trace. *)
Definition fetches (w : list event) : nat :=
  List.length
    (filter (fun ev => match ev with BlocksChildrenList _ _ => true
                                | _ => false end) w).

(* The number of language-model calls in a trace. *)
Definition model_calls (w : list event) : nat :=
  List.length
    (filter (fun ev => match ev with MessagesCreate _ => true
                                | _ => false end) w).

Definition is_fetch (ev : event) : Prop :=
  match ev with BlocksChildrenList _ _ => True | _ => False end.

(* Every answer of the store has at most [n] blocks. *)
Definition page_bounded (notion : Notion) (n : nat) : Prop :=
  forall blockId results,
    blocks_children_list notion blockId = inr results ->
    List.length results <= n.

(* The page [searchNotion] pushes for a result whose flattened text is [c]. *)
Definition rendered (result : PageObjectResponse) (c : jsstring)
  : NotionPage :=
  {| id := page_id_of result;
     title := extractPageTitle result;
     url := page_url result;
     content := slice0 3000 c |}.

(* What one candidate contributes to the output: its page when flattening
   returned a text that is not blank, nothing otherwise. *)
Definition rendering (notion : Notion) (r : SearchResult) : list NotionPage :=
  match r with
  | PartialPage _ => []
  | FullPage result =>
      match fst (extractBlockContent notion (page_id_of result) 0) with
      | Returned c => if truthy (trim c) then [rendered result c] else []
      | _ => []
      end
  end.

(* The candidates of a search: the first five results in scope. *)
Definition candidates (env : Env) (results : list SearchResult)
  : list SearchResult :=
  firstn 5 (filter_by_database (NOTION_DATABASE_ID env) results).

Inductive subsequence {A : Type} : list A -> list A -> Prop :=
| subsequence_nil : subsequence [] []
| subsequence_take x l1 l2 :
    subsequence l1 l2 -> subsequence (x :: l1) (x :: l2)
| subsequence_skip x l1 l2 :
    subsequence l1 l2 -> subsequence l1 (x :: l2).

(* Two identifiers that differ by hyphens only. *)
Inductive hyphen_variant : jsstring -> jsstring -> Prop :=
| hyphen_variant_nil : hyphen_variant [] []
| hyphen_variant_same c a b :
    hyphen_variant a b -> hyphen_variant (c :: a) (c :: b)
| hyphen_variant_left a b :
    hyphen_variant a b -> hyphen_variant (45%N :: a) b
| hyphen_variant_right a b :
    hyphen_variant a b -> hyphen_variant a (45%N :: b).

(* The block kinds whose text is the rich text alone, with no marker. *)
Definition renders_raw_text (t : BlockType) : bool :=
  match t with
  | paragraph _ | numbered_list_item _ | toggle _ | table_row _ => true
  | _ => false
  end.

Definition is_title_property (prop : Property) : bool :=
  match prop with title_property _ => true | other_property _ => false end.

(* The line [console.error] prints for a candidate that threw. *)
Definition error_line (result : PageObjectResponse) : jsstring :=
  js "[Notion] Error procesando página " ++ page_id_of result ++ js ":".

(* A text with no character but white space (the empty text included). *)
Definition blank (s : jsstring) : bool := forallb is_white_space s.

(* The lines the blocks of one answer contribute by themselves: the text
   of every full block whose text is not blank. *)
Definition own_lines (results : list BlockResult) : list jsstring :=
  flat_map (fun r =>
              match r with
              | PartialBlock _ => []
              | FullBlock b =>
                  if truthy (trim (block_text b)) then [block_text b] else []
              end) results.

(* The number of search calls in a trace. *)
Definition search_calls (w : list event) : nat :=
  List.length
    (filter (fun ev => match ev with Search _ _ => true | _ => false end) w).

(* The request [generateAnswer] sends for a query and its pages. *)
Definition request (query : jsstring) (notionPages : list NotionPage)
  : MessageCreateParams :=
  {| model := js "claude-sonnet-4-6";
     max_tokens := 1024;
     system := SYSTEM_PROMPT;
     user_content := userMessage query notionPages |}.

(* The console line [generateAnswer] prints before the call. *)
Definition generating_line (notionPages : list NotionPage) : jsstring :=
  js "[Claude] Generando respuesta con "
  ++ of_nat (List.length notionPages) ++ js " páginas de contexto".

(* A flattened text is empty or not blank. *)
Definition inked (m : M jsstring) : Prop :=
  forall c, fst m = Returned c -> c = [] \/ blank c = false.

(* A computation that throws stopped at a fetch the store refused. *)
Definition fails_at_fetch (notion : Notion) (m : M jsstring) : Prop :=
  forall e, fst m = Thrown e ->
    exists w b, snd m = w ++ [BlocksChildrenList b 50]
                /\ blocks_children_list notion b = inl e.

(* What both listeners run between the query and the reply: the search,
   then the synthesis on its pages. *)
Definition answer_query (env : Env) (notion : Notion) (anthropic : Anthropic)
    (query : jsstring) : M jsstring :=
  notionPages <- searchNotion env notion query ;;
  generateAnswer anthropic query notionPages.

(* The thread a reply to a mention goes to: [threadTs ?? event.ts]. *)
Definition reply_thread (event : AppMentionEvent) : jsstring :=
  match event_thread_ts event with
  | Some (Some t) => t
  | _ => event_ts event
  end.

(* A mention as Slack writes it: [<@] an identifier [>]. *)
Definition mention (ident : jsstring) : jsstring :=
  js "<@" ++ ident ++ js ">".

Definition is_say (ev : handler_event) : bool :=
  match ev with Say _ => true | _ => false end.

(** ** Stores and pages of the examples *)

Definition rich (s : jsstring) : list RichTextItemResponse :=
  [{| plain_text := s |}].

(* Scenario C: a paragraph "Hello" whose child is a bulleted item "World". *)
Definition hello_store : Notion := {|
  blocks_children_list := fun blockId =>
    if eqb blockId (js "root") then
      inr [FullBlock {| block_id := js "p"; has_children := true;
                        block_type := paragraph (rich (js "Hello")) |}]
    else if eqb blockId (js "p") then
      inr [FullBlock {| block_id := js "w"; has_children := false;
                        block_type := bulleted_list_item (rich (js "World")) |}]
    else inl (js "object_not_found");
  search := fun _ => inr []
|}.

(* A cyclic tree: every block is a toggle that is its own only child. *)
Definition cyclic_store : Notion := {|
  blocks_children_list := fun blockId =>
    inr [FullBlock {| block_id := blockId; has_children := true;
                      block_type := toggle (rich (js "a")) |}];
  search := fun _ => inr []
|}.

(* A wiki of four pages in database "abc-123": "bad" cannot be fetched,
   "blank" holds spaces only, "notes" has an empty title, and the text of
   "padded" starts with 3000 spaces. *)
Definition wiki_page (name : string) (props : list (jsstring * Property))
  : PageObjectResponse :=
  {| page_id_of := js name;
     page_url := js "https://www.notion.so/" ++ js name;
     parent := database_id (js "abc-123");
     properties := props |}.

Definition bad_page : PageObjectResponse :=
  wiki_page "bad" [(js "Name", title_property (rich (js "Bad")))].

Definition blank_page : PageObjectResponse :=
  wiki_page "blank" [(js "Name", title_property (rich (js "Blank")))].

Definition notes_page : PageObjectResponse :=
  wiki_page "notes" [(js "Tags", other_property (js "multi_select"));
                     (js "Name", title_property [])].

Definition padded_page : PageObjectResponse :=
  wiki_page "padded" [(js "Name", title_property (rich (js "Pad")))].

Definition padded_text : jsstring := repeat 32%N 3000 ++ js "x".

Definition wiki_results : list SearchResult :=
  [FullPage bad_page; FullPage blank_page; PartialPage (js "stub");
   FullPage notes_page; FullPage padded_page].

Definition leaf (name : string) (t : BlockType) : BlockResult :=
  FullBlock {| block_id := js name; has_children := false; block_type := t |}.

Definition wiki_store : Notion := {|
  blocks_children_list := fun blockId =>
    if eqb blockId (js "blank") then
      inr [leaf "b1" (paragraph (rich (js "   ")))]
    else if eqb blockId (js "notes") then
      inr [leaf "n1" (paragraph (rich (js "Hello")))]
    else if eqb blockId (js "padded") then
      inr [leaf "p1" (paragraph (rich padded_text))]
    else inl (js "timeout");
  search := fun _ => inr wiki_results
|}.

Definition wiki_env : Env := {| NOTION_DATABASE_ID := Some (js "abc123") |}.

(* A language model that must not be called. *)
Definition silent_model : Anthropic := {|
  messages_create := fun _ => inl (js "overloaded")
|}.

(* A model that answers with a tool call, then two texts. *)
Definition chatty_model : Anthropic := {|
  messages_create := fun _ =>
    inr [other_block (js "tool_use"); text_block (js "Hola");
         text_block (js "Adiós")]
|}.

(* A model that answers with a tool call only. *)
Definition mute_model : Anthropic := {|
  messages_create := fun _ => inr [other_block (js "tool_use")]
|}.

(* A workspace where every Slack call is accepted. *)
Definition open_slack : Slack := {|
  say := fun _ => inr tt;
  reactions_add := fun _ => inr tt;
  reactions_remove := fun _ => inr tt;
  ack := inr tt;
  respond := fun _ => inr tt;
  chat_postMessage := fun _ => inr tt
|}.

(* A Notion whose search is down. *)
Definition down_store : Notion := {|
  blocks_children_list := fun _ => inl (js "unreachable");
  search := fun _ => inl (js "unreachable")
|}.

Definition hello_event : AppMentionEvent := {|
  event_text := js "<@U0WIKIBOT> vacaciones";
  event_ts := js "1700000000.000100";
  event_channel := js "C0GENERAL";
  event_thread_ts := None
|}.

Definition hello_command : SlashCommand := {|
  command_text := js " vacaciones ";
  user_name := js "ana";
  user_id := js "U0ANA";
  channel_id := js "C0GENERAL"
|}.

(* A page with a rule between two paragraphs. *)
Definition ruled_store : Notion := {|
  blocks_children_list := fun blockId =>
    if eqb blockId (js "root") then
      inr [leaf "p1" (paragraph (rich (js "a" ++ LF)));
           leaf "d" divider;
           leaf "p2" (paragraph (rich (LF ++ js "b")))]
    else inl (js "object_not_found");
  search := fun _ => inr []
|}.

(** * Properties *)

Unset Implicit Arguments.

(** ** Literals and strings *)

Example js_ascii : js "---" = [45; 45; 45]%N.
Proof. reflexivity. Qed.

Example js_bullet : js "• " = [0x2022; 0x20]%N.
Proof. reflexivity. Qed.

Example js_pin : js "📌" = [0xD83D; 0xDCCC]%N.
Proof. reflexivity. Qed.

Example js_accent : js "Sin título" =
  [83; 105; 110; 32; 116; 0xED; 116; 117; 108; 111]%N.
Proof. reflexivity. Qed.

Example trim_example : trim (js "  a b ") = js "a b".
Proof. reflexivity. Qed.

Example of_nat_example : of_nat 3000 = js "3000".
Proof. reflexivity. Qed.

Lemma eqb_eq (a b : jsstring) : eqb a b = true <-> a = b.
Proof.
  unfold eqb. destruct (list_eq_dec N.eq_dec a b); split; congruence.
Qed.

Lemma truthy_true (s : jsstring) : truthy s = true <-> s <> [].
Proof. destruct s; simpl; split; congruence. Qed.

(** ** The monad *)

Lemma fst_bind_returned {A B} (a : A) (w : list event) (f : A -> M B) :
  fst (bind (Returned a, w) f) = fst (f a).
Proof. unfold bind. destruct (f a); reflexivity. Qed.

Lemma snd_bind_returned {A B} (a : A) (w : list event) (f : A -> M B) :
  snd (bind (Returned a, w) f) = w ++ snd (f a).
Proof. unfold bind. destruct (f a); reflexivity. Qed.

Lemma bind_returned {A B} (a : A) (w : list event) (f : A -> M B) :
  bind (Returned a, w) f = (fst (f a), w ++ snd (f a)).
Proof. unfold bind. destruct (f a); reflexivity. Qed.

Lemma bind_thrown {A B} (e : error) (w : list event) (f : A -> M B) :
  bind (Thrown e, w) f = (Thrown e, w).
Proof. reflexivity. Qed.

Lemma bind_out_of_fuel {A B} (w : list event) (f : A -> M B) :
  bind (OutOfFuel, w) f = (OutOfFuel, w).
Proof. reflexivity. Qed.

Lemma try_catch_returned {A} (a : A) (w : list event) (h : error -> M A) :
  try_catch (Returned a, w) h = (Returned a, w).
Proof. reflexivity. Qed.

Lemma try_catch_thrown {A} (e : error) (w : list event) (h : error -> M A) :
  try_catch (Thrown e, w) h = (fst (h e), w ++ snd (h e)).
Proof. unfold try_catch. destruct (h e); reflexivity. Qed.

Lemma try_catch_out_of_fuel {A} (w : list event) (h : error -> M A) :
  try_catch (OutOfFuel, w) h = (OutOfFuel, w).
Proof. reflexivity. Qed.

Create Rewrite HintDb monad.
#[local] Hint Rewrite @bind_returned @bind_thrown @bind_out_of_fuel
  @try_catch_returned @try_catch_thrown @try_catch_out_of_fuel : monad.

(* Runs the monad operations that have reached a value. *)
Ltac run :=
  unfold emit, ret, await;
  repeat (progress (autorewrite with monad; cbn [fst snd])).

Lemma fetches_app (w1 w2 : list event) :
  fetches (w1 ++ w2) = fetches w1 + fetches w2.
Proof. unfold fetches. now rewrite filter_app, length_app. Qed.

(** ** The flattener: the depth counter bounds the recursion *)

Section FlattenerFacts.

Variable notion : Notion.

Lemma extractBlockContent_loop_ext self1 self2 depth results lines :
  (depth < 2 -> forall blockId, self1 blockId (depth + 1)
                                = self2 blockId (depth + 1)) ->
  extractBlockContent_loop self1 depth results lines
  = extractBlockContent_loop self2 depth results lines.
Proof.
  intros Hself. revert lines.
  induction results as [|[i|b] rest IH]; intros lines; simpl; auto.
  destruct (has_children b); simpl; auto.
  destruct (depth <? 2) eqn:Hd; auto.
  apply Nat.ltb_lt in Hd. rewrite (Hself Hd).
  destruct (self2 (block_id b) (depth + 1)) as [[c|e|] w]; simpl; auto.
  now rewrite IH.
Qed.

Lemma extractBlockContent_fuel_stable fuel1 fuel2 blockId depth :
  1 <= fuel1 -> 3 <= fuel1 + depth ->
  1 <= fuel2 -> 3 <= fuel2 + depth ->
  extractBlockContent_fuel notion fuel1 blockId depth
  = extractBlockContent_fuel notion fuel2 blockId depth.
Proof.
  revert fuel2 blockId depth.
  induction fuel1 as [|f1 IH]; intros [|f2] blockId depth H1 H2 H3 H4;
    try lia.
  simpl. unfold extractBlockContent_body.
  destruct (3 <? depth); auto.
  destruct (blocks_children_list notion blockId) as [e|results]; simpl; auto.
  rewrite (extractBlockContent_loop_ext
             (extractBlockContent_fuel notion f1)
             (extractBlockContent_fuel notion f2)); auto.
  intros Hd b. apply IH; lia.
Qed.

Lemma extractBlockContent_loop_returns self depth results lines :
  (depth < 2 -> forall blockId, fst (self blockId (depth + 1)) <> OutOfFuel) ->
  fst (extractBlockContent_loop self depth results lines) <> OutOfFuel.
Proof.
  intros Hself. revert lines.
  induction results as [|[i|b] rest IH]; intros lines; simpl; auto.
  - discriminate.
  - destruct (has_children b); simpl; auto.
    destruct (depth <? 2) eqn:Hd; auto.
    apply Nat.ltb_lt in Hd. specialize (Hself Hd (block_id b)).
    destruct (self (block_id b) (depth + 1)) as [[c|e|] w].
    + rewrite fst_bind_returned. apply IH.
    + discriminate.
    + exfalso. now apply Hself.
Qed.

Lemma extractBlockContent_fuel_returns fuel blockId depth :
  1 <= fuel -> 3 <= fuel + depth ->
  fst (extractBlockContent_fuel notion fuel blockId depth) <> OutOfFuel.
Proof.
  revert blockId depth.
  induction fuel as [|f IH]; intros blockId depth H1 H2; try lia.
  simpl. unfold extractBlockContent_body.
  destruct (3 <? depth); [discriminate|].
  destruct (blocks_children_list notion blockId) as [e|results]; simpl;
    [discriminate|].
  pose proof (@extractBlockContent_loop_returns
                (extractBlockContent_fuel notion f) depth results []) as Hl.
  destruct (extractBlockContent_loop _ depth results []) as [[ls|e|] w];
    simpl in *; try discriminate.
  exfalso. apply Hl; auto. intros Hd b. apply IH; lia.
Qed.

Lemma extractBlockContent_returns blockId depth :
  fst (extractBlockContent notion blockId depth) <> OutOfFuel.
Proof. apply extractBlockContent_fuel_returns; lia. Qed.

(* Fetches of the loop: each block costs at most what one recursive call
   costs. *)
Lemma extractBlockContent_loop_fetches self depth results lines c :
  (forall blockId, fetches (snd (self blockId (depth + 1))) <= c) ->
  fetches (snd (extractBlockContent_loop self depth results lines))
  <= List.length results * c.
Proof.
  intros Hself. revert lines.
  induction results as [|[i|b] rest IH]; intros lines; simpl; auto.
  - specialize (IH lines). lia.
  - destruct (has_children b && (depth <? 2)).
    + specialize (Hself (block_id b)).
      destruct (self (block_id b) (depth + 1)) as [[t|e|] w];
        [|simpl in *; lia..].
      rewrite snd_bind_returned, fetches_app.
      match goal with |- _ + fetches (snd (extractBlockContent_loop _ _ _ ?l))
                         <= _ => specialize (IH l) end.
      simpl in *. lia.
    + specialize (IH (if truthy (trim (block_text b))
                      then lines ++ [block_text b] else lines)). lia.
Qed.

Lemma extractBlockContent_loop_leaf self depth results lines :
  2 <= depth ->
  snd (extractBlockContent_loop self depth results lines) = [].
Proof.
  intros Hd. revert lines.
  induction results as [|[i|b] rest IH]; intros lines; simpl; auto.
  replace (depth <? 2) with false by (symmetry; apply Nat.ltb_ge; lia).
  rewrite andb_false_r. apply IH.
Qed.

Lemma extractBlockContent_body_fetches self blockId depth n c :
  page_bounded notion n ->
  (forall b, fetches (snd (self b (depth + 1))) <= c) ->
  fetches (snd (extractBlockContent_body notion self blockId depth))
  <= 1 + n * c.
Proof.
  intros Hn Hself. unfold extractBlockContent_body.
  destruct (3 <? depth); [unfold fetches; simpl; lia|].
  destruct (blocks_children_list notion blockId) as [e|results] eqn:E;
    [unfold fetches; simpl; lia|].
  pose proof (@extractBlockContent_loop_fetches self depth results [] c Hself)
    as Hl.
  apply Hn in E. apply (Nat.mul_le_mono_r _ _ c) in E.
  unfold await. rewrite snd_bind_returned, fetches_app.
  change (fetches [BlocksChildrenList blockId 50]) with 1.
  destruct (extractBlockContent_loop self depth results []) as [[ls|e|] w];
    unfold bind, ret; cbn [snd] in *; rewrite ?app_nil_r; lia.
Qed.

End FlattenerFacts.

(** ** C7, C1: termination and the depth ceiling *)

Example cyclic_flatten :
  extractBlockContent cyclic_store (js "a") 0
  = (Returned (js "a" ++ LF ++ js "a" ++ LF ++ js "a"),
     [BlocksChildrenList (js "a") 50; BlocksChildrenList (js "a") 50;
      BlocksChildrenList (js "a") 50]).
Proof. reflexivity. Qed.

(** C7: flattening terminates on every store, cyclic or deep.  Unfolding
    the recursion three levels is enough at every depth: more fuel gives
    the same run, that run never ends for lack of fuel, and when no answer
    of the store has more than [n] blocks it makes at most [1 + n + n * n]
    fetches.  Only the depth counter is used: nothing about the store is
    assumed. *)
Theorem extractBlockContent_terminates notion fuel blockId depth :
  3 <= fuel ->
  extractBlockContent_fuel notion fuel blockId depth
  = extractBlockContent notion blockId depth
  /\ fst (extractBlockContent notion blockId depth) <> OutOfFuel
  /\ (forall n, page_bounded notion n ->
        fetches (snd (extractBlockContent notion blockId depth))
        <= 1 + n + n * n).
Proof.
  intros Hfuel. split; [|split].
  - apply extractBlockContent_fuel_stable; lia.
  - apply extractBlockContent_returns.
  - intros n Hn. unfold extractBlockContent. simpl.
    assert (H1 : forall b d,
               fetches (snd (extractBlockContent_body notion
                               (fun _ _ => out_of_fuel) b d)) <= 1).
    { intros b d.
      pose proof (@extractBlockContent_body_fetches notion
                    (fun _ _ => out_of_fuel) b d n 0 Hn) as H.
      rewrite Nat.mul_0_r in H. apply H. intros; apply Nat.le_0_l. }
    assert (H2 : forall b d,
               fetches (snd (extractBlockContent_body notion
                               (extractBlockContent_body notion
                                  (fun _ _ => out_of_fuel)) b d)) <= 1 + n).
    { intros b d.
      pose proof (@extractBlockContent_body_fetches notion
                    (extractBlockContent_body notion (fun _ _ => out_of_fuel))
                    b d n 1 Hn) as H.
      rewrite Nat.mul_1_r in H. apply H. intros; apply H1. }
    pose proof (@extractBlockContent_body_fetches notion
                  (extractBlockContent_body notion
                     (extractBlockContent_body notion (fun _ _ => out_of_fuel)))
                  blockId depth n (1 + n) Hn) as H3.
    rewrite Nat.mul_add_distr_l, Nat.mul_1_r in H3.
    rewrite Nat.add_assoc in H3. apply H3. intros; apply H2.
Qed.

Lemma extractBlockContent_terminates_witness :
  3 <= 5 /\
  (extractBlockContent_fuel cyclic_store 5 (js "a") 0
   = extractBlockContent cyclic_store (js "a") 0
   /\ fst (extractBlockContent cyclic_store (js "a") 0) <> OutOfFuel
   /\ fetches (snd (extractBlockContent cyclic_store (js "a") 0)) <= 3).
Proof.
  split; [lia|].
  destruct (extractBlockContent_terminates cyclic_store 5 (js "a") 0)
    as (H1 & H2 & H3); [lia|].
  split; [exact H1|split; [exact H2|]].
  apply (H3 1). intros b rs E. injection E as <-. simpl. lia.
Defined.

(** C1, as the code has it: above the ceiling, [depth > 3], the flattener
    returns the empty text at once, without a fetch.  (At depth 3 itself
    the guard does not fire.) *)
Theorem extractBlockContent_above_ceiling notion blockId depth :
  3 < depth ->
  extractBlockContent notion blockId depth = (Returned [], []).
Proof.
  intros Hd. unfold extractBlockContent. simpl.
  unfold extractBlockContent_body.
  apply Nat.ltb_lt in Hd. now rewrite Hd.
Qed.

Lemma extractBlockContent_above_ceiling_witness :
  3 < 4 /\ extractBlockContent hello_store (js "root") 4 = (Returned [], []).
Proof.
  split; [lia|]. apply extractBlockContent_above_ceiling. lia.
Defined.

(** C1 as stated fails at depth 3: the children are fetched and rendered. *)
Lemma extractBlockContent_depth_3_renders :
  ~ (forall notion blockId depth,
        3 <= depth ->
        fst (extractBlockContent notion blockId depth) = Returned []).
Proof.
  intros H. specialize (H hello_store (js "root") 3 (le_n 3)).
  vm_compute in H. discriminate H.
Qed.

Example extractBlockContent_depth_3 :
  extractBlockContent hello_store (js "root") 3
  = (Returned (js "Hello"), [BlocksChildrenList (js "root") 50]).
Proof. reflexivity. Qed.

(** ** The selector: what the loop over the candidates returns *)

Section SelectorFacts.

Variable env : Env.
Variable notion : Notion.

Lemma extractBlockContent_loop_events self depth results lines :
  (forall blockId, Forall is_fetch (snd (self blockId (depth + 1)))) ->
  Forall is_fetch (snd (extractBlockContent_loop self depth results lines)).
Proof.
  intros Hself. revert lines.
  induction results as [|[i|b] rest IH]; intros lines; simpl; auto.
  destruct (has_children b && (depth <? 2)); auto.
  specialize (Hself (block_id b)).
  destruct (self (block_id b) (depth + 1)) as [[t|e|] w]; auto.
  rewrite snd_bind_returned. apply Forall_app. split; auto.
Qed.

Lemma extractBlockContent_fuel_events fuel blockId depth :
  Forall is_fetch (snd (extractBlockContent_fuel notion fuel blockId depth)).
Proof.
  revert blockId depth. induction fuel as [|f IH]; intros blockId depth;
    simpl; auto.
  unfold extractBlockContent_body.
  destruct (3 <? depth); simpl; auto.
  destruct (blocks_children_list notion blockId) as [e|results]; simpl.
  - repeat constructor.
  - pose proof (extractBlockContent_loop_events
                  (extractBlockContent_fuel notion f) depth results []
                  (fun b => IH b (depth + 1))) as Hl.
    destruct (extractBlockContent_loop _ depth results []) as [[ls|e|] w];
      simpl in *; rewrite ?app_nil_r; constructor; simpl; auto.
Qed.

Lemma searchNotion_loop_pages results pages :
  fst (searchNotion_loop notion results pages)
  = Returned (pages ++ flat_map (rendering notion) results).
Proof.
  revert pages.
  induction results as [|[result|i] rest IH]; intros pages;
    cbn [searchNotion_loop flat_map rendering].
  - now rewrite app_nil_r.
  - pose proof (extractBlockContent_returns notion (page_id_of result) 0)
      as Hfuel.
    destruct (extractBlockContent notion (page_id_of result) 0)
      as [[c|e|] w]; cbn [fst] in *.
    + run. destruct (truthy (trim c)); run; rewrite IH.
      * now rewrite <- app_assoc.
      * reflexivity.
    + run. apply IH.
    + congruence.
  - apply IH.
Qed.

Lemma searchNotion_loop_errors results pages line err :
  In (ConsoleError line err) (snd (searchNotion_loop notion results pages)) ->
  exists result,
    In (FullPage result) results
    /\ fst (extractBlockContent notion (page_id_of result) 0) = Thrown err.
Proof.
  revert pages.
  induction results as [|[result|i] rest IH]; intros pages;
    cbn [searchNotion_loop].
  - intros [].
  - pose proof (extractBlockContent_fuel_events 3 (page_id_of result) 0)
      as Hev.
    fold (extractBlockContent notion (page_id_of result) 0) in Hev.
    assert (Hno : ~ In (ConsoleError line err)
                    (snd (extractBlockContent notion (page_id_of result) 0))).
    { intros Hin. rewrite Forall_forall in Hev. apply (Hev _ Hin). }
    destruct (extractBlockContent notion (page_id_of result) 0)
      as [[c|e|] w] eqn:E; cbn [fst snd] in *; run;
      [destruct (truthy (trim c)); run| |]; intros Hin;
      repeat (apply in_app_or in Hin; destruct Hin as [Hin|Hin]);
      first
        [ tauto
        | solve [destruct Hin]
        | destruct Hin as [Hin|[]]; discriminate
        | destruct (IH _ Hin) as (r & Hr & He); exists r; split;
          [right; exact Hr|exact He]
        | destruct Hin as [Hin|[]]; injection Hin as _ <-; exists result;
          split; [left; reflexivity|now rewrite E] ].
  - intros Hin. destruct (IH _ Hin) as (r & Hr & He).
    exists r; split; [right; exact Hr|exact He].
Qed.

Lemma searchNotion_pages query results :
  search notion query = inr results ->
  fst (searchNotion env notion query)
  = Returned (flat_map (rendering notion) (candidates env results)).
Proof.
  intros Hs. unfold searchNotion. rewrite Hs. run.
  apply (searchNotion_loop_pages _ []).
Qed.

Lemma searchNotion_search_answered query pages :
  fst (searchNotion env notion query) = Returned pages ->
  exists results, search notion query = inr results.
Proof.
  unfold searchNotion. destruct (search notion query) as [e|results].
  - simpl. discriminate.
  - eauto.
Qed.

Lemma searchNotion_loop_logged results pages result e :
  In (FullPage result) results ->
  fst (extractBlockContent notion (page_id_of result) 0) = Thrown e ->
  In (ConsoleError (error_line result) e)
     (snd (searchNotion_loop notion results pages)).
Proof.
  intros Hin He. unfold error_line. revert pages.
  induction results as [|[r|i] rest IH]; intros pages;
    cbn [searchNotion_loop]; [destruct Hin| |].
  - pose proof (extractBlockContent_returns notion (page_id_of r) 0) as Hfuel.
    destruct Hin as [Heq|Hin].
    + injection Heq as ->.
      destruct (extractBlockContent notion (page_id_of result) 0)
        as [[c|e'|] w]; cbn [fst] in *; try discriminate.
      injection He as ->. run.
      apply in_or_app. left. apply in_or_app. right. left. reflexivity.
    + destruct (extractBlockContent notion (page_id_of r) 0)
        as [[c|e'|] w]; cbn [fst] in *; run;
        [destruct (truthy (trim c)); run| |congruence];
        apply in_or_app; right; apply IH; exact Hin.
  - destruct Hin as [Heq|Hin]; [discriminate|]. apply IH. exact Hin.
Qed.

Lemma searchNotion_trace query results :
  search notion query = inr results ->
  exists w,
    snd (searchNotion env notion query)
    = w ++ snd (searchNotion_loop notion (candidates env results) [])
    /\ forall line err, ~ In (ConsoleError line err) w.
Proof.
  intros Hs. unfold searchNotion. rewrite Hs. run.
  eexists. split.
  - rewrite !app_assoc. reflexivity.
  - intros line err Hin.
    repeat (apply in_app_or in Hin; destruct Hin as [Hin|Hin]);
      repeat (destruct Hin as [Hin|Hin]; [discriminate|]); destruct Hin.
Qed.

Lemma rendering_subsequence (l : list SearchResult) :
  exists chosen,
    subsequence chosen l
    /\ Forall2 (fun r p => exists result c,
                  r = FullPage result /\ p = rendered result c)
               chosen (flat_map (rendering notion) l).
Proof.
  induction l as [|[result|i] l (chosen & Hsub & Hall)];
    cbn [flat_map rendering].
  - exists []. split; constructor.
  - destruct (fst (extractBlockContent notion (page_id_of result) 0))
      as [c|e|]; [destruct (truthy (trim c))| |]; cbn [app].
    + exists (FullPage result :: chosen). split; constructor; eauto.
    + exists chosen. split; [constructor|]; assumption.
    + exists chosen. split; [constructor|]; assumption.
    + exists chosen. split; [constructor|]; assumption.
  - exists chosen. split; [constructor|]; assumption.
Qed.

Lemma rendering_origin (l : list SearchResult) (p : NotionPage) :
  In p (flat_map (rendering notion) l) ->
  exists result c,
    In (FullPage result) l
    /\ fst (extractBlockContent notion (page_id_of result) 0) = Returned c
    /\ trim c <> []
    /\ p = rendered result c.
Proof.
  rewrite in_flat_map. intros ([result|i] & Hin & Hp); cbn [rendering] in Hp;
    [|destruct Hp].
  destruct (fst (extractBlockContent notion (page_id_of result) 0))
    as [c|e|] eqn:E; try destruct Hp.
  destruct (truthy (trim c)) eqn:Ht; [|destruct Hp].
  destruct Hp as [<-|[]]. exists result, c.
  repeat split; auto. now apply truthy_true.
Qed.

End SelectorFacts.

(** ** Lists, titles and the scope filter *)

Lemma subsequence_refl {A} (l : list A) : subsequence l l.
Proof. induction l; constructor; auto. Qed.

Lemma subsequence_length {A} (l1 l2 : list A) :
  subsequence l1 l2 -> List.length l1 <= List.length l2.
Proof. induction 1; simpl; lia. Qed.

Lemma filter_subsequence {A} (f : A -> bool) (l : list A) :
  subsequence (filter f l) l.
Proof.
  induction l as [|x l IH]; simpl; [constructor|].
  destruct (f x); constructor; exact IH.
Qed.

Lemma filter_by_database_subsequence databaseId results :
  subsequence (filter_by_database databaseId results) results.
Proof.
  unfold filter_by_database. destruct databaseId as [d|].
  - destruct (truthy d); [apply filter_subsequence|apply subsequence_refl].
  - apply subsequence_refl.
Qed.

Lemma find_title_skip (before rest : list (jsstring * Property)) :
  (forall other, In other before -> is_title_property (snd other) = false) ->
  find is_title_property (map snd (before ++ rest))
  = find is_title_property (map snd rest).
Proof.
  induction before as [|x before IH]; intros H; simpl; auto.
  rewrite (H x (or_introl eq_refl)). apply IH.
  intros other Hin. apply H. now right.
Qed.

Lemma extractPageTitle_first page before name t after :
  properties page = before ++ (name, title_property t) :: after ->
  (forall other, In other before -> is_title_property (snd other) = false) ->
  extractPageTitle page = extractRichText t.
Proof.
  intros Hp Hb. unfold extractPageTitle.
  change (fun prop : Property =>
            match prop with title_property _ => true | _ => false end)
    with is_title_property.
  rewrite Hp, (find_title_skip before _ Hb). reflexivity.
Qed.

Lemma extractPageTitle_default page :
  (forall prop, In prop (properties page) ->
                is_title_property (snd prop) = false) ->
  extractPageTitle page = js "Sin título".
Proof.
  intros H. unfold extractPageTitle.
  change (fun prop : Property =>
            match prop with title_property _ => true | _ => false end)
    with is_title_property.
  rewrite <- (app_nil_r (properties page)), (find_title_skip _ [] H).
  reflexivity.
Qed.

(** ** C3, C4, C8, C10: what the selector returns *)

Example searchNotion_wiki :
  fst (searchNotion wiki_env wiki_store (js "vacaciones"))
  = Returned [rendered notes_page (js "Hello");
              rendered padded_page padded_text].
Proof. vm_compute. reflexivity. Qed.

(** C3, as the code has it: every page of the output is built from a
    candidate whose flattened text, before truncation, is not blank, and
    its content is the first 3000 code units of that text; the only
    [console.error] lines come from candidates whose flattening threw, so
    a blank document is dropped without an error report. *)
Theorem searchNotion_keeps_nonblank env notion query pages :
  fst (searchNotion env notion query) = Returned pages ->
  exists results,
    search notion query = inr results
    /\ (forall p, In p pages ->
          exists result c,
            In (FullPage result) (candidates env results)
            /\ fst (extractBlockContent notion (page_id_of result) 0)
               = Returned c
            /\ trim c <> []
            /\ p = rendered result c)
    /\ (forall line err,
          In (ConsoleError line err) (snd (searchNotion env notion query)) ->
          exists result,
            In (FullPage result) (candidates env results)
            /\ fst (extractBlockContent notion (page_id_of result) 0)
               = Thrown err).
Proof.
  intros Hret.
  destruct (searchNotion_search_answered env notion query pages Hret)
    as (results & Hs).
  exists results. split; [exact Hs|]. split.
  - intros p Hp.
    rewrite (searchNotion_pages env notion query results Hs) in Hret.
    injection Hret as <-. now apply rendering_origin.
  - intros line err Hin.
    destruct (searchNotion_trace env notion query results Hs)
      as (w & Hw & Hclean).
    rewrite Hw in Hin. apply in_app_or in Hin. destruct Hin as [Hin|Hin].
    + now apply Hclean in Hin.
    + now apply searchNotion_loop_errors in Hin.
Qed.

Lemma searchNotion_keeps_nonblank_witness :
  exists results,
    search wiki_store (js "vacaciones") = inr results
    /\ (forall p,
          In p [rendered notes_page (js "Hello");
                rendered padded_page padded_text] ->
          exists result c,
            In (FullPage result) (candidates wiki_env results)
            /\ fst (extractBlockContent wiki_store (page_id_of result) 0)
               = Returned c
            /\ trim c <> []
            /\ p = rendered result c)
    /\ (forall line err,
          In (ConsoleError line err)
             (snd (searchNotion wiki_env wiki_store (js "vacaciones"))) ->
          exists result,
            In (FullPage result) (candidates wiki_env results)
            /\ fst (extractBlockContent wiki_store (page_id_of result) 0)
               = Thrown err).
Proof.
  apply (searchNotion_keeps_nonblank wiki_env wiki_store (js "vacaciones")).
  vm_compute. reflexivity.
Defined.

(** C3 as stated fails: the blank test is made before the truncation, so
    a text that starts with 3000 spaces is kept and its stored content is
    blank. *)
Lemma searchNotion_blank_content :
  ~ (forall env notion query pages,
        fst (searchNotion env notion query) = Returned pages ->
        Forall (fun p => trim (content p) <> []) pages).
Proof.
  intros H.
  specialize (H wiki_env wiki_store (js "vacaciones") _ searchNotion_wiki).
  rewrite Forall_forall in H.
  apply (H (rendered padded_page padded_text)).
  - right. left. reflexivity.
  - vm_compute. reflexivity.
Qed.

(** C4: when the search answers, [searchNotion] returns: no exception of
    the loop escapes.  Its output is, in order, the page of every candidate
    whose flattening returned a text that is not blank; a candidate whose
    flattening throws contributes nothing, is reported on [console.error],
    and the candidates before and after it are rendered as without it. *)
Theorem searchNotion_isolates_failures env notion query results :
  search notion query = inr results ->
  fst (searchNotion env notion query)
  = Returned (flat_map (rendering notion) (candidates env results))
  /\ forall before result after e,
       candidates env results = before ++ FullPage result :: after ->
       fst (extractBlockContent notion (page_id_of result) 0) = Thrown e ->
       fst (searchNotion env notion query)
       = Returned (flat_map (rendering notion) before
                   ++ flat_map (rendering notion) after)
       /\ In (ConsoleError (error_line result) e)
             (snd (searchNotion env notion query)).
Proof.
  intros Hs.
  pose proof (searchNotion_pages env notion query results Hs) as Hp.
  split; [exact Hp|].
  intros before result after e Hc He. split.
  - rewrite Hp, Hc, flat_map_app. cbn [flat_map rendering].
    now rewrite He.
  - destruct (searchNotion_trace env notion query results Hs)
      as (w & Hw & _).
    rewrite Hw. apply in_or_app. right.
    apply searchNotion_loop_logged; [|exact He].
    rewrite Hc. apply in_or_app. right. left. reflexivity.
Qed.

Lemma searchNotion_isolates_failures_witness :
  search wiki_store (js "vacaciones") = inr wiki_results
  /\ fst (searchNotion wiki_env wiki_store (js "vacaciones"))
     = Returned (flat_map (rendering wiki_store)
                   (candidates wiki_env wiki_results)).
Proof.
  split; [reflexivity|].
  exact (proj1 (searchNotion_isolates_failures wiki_env wiki_store
                  (js "vacaciones") wiki_results eq_refl)).
Defined.

(* Scenario F: the first candidate cannot be fetched, the later ones are
   still rendered and the failure is on the console. *)
Example searchNotion_scenario_F :
  fst (extractBlockContent wiki_store (page_id_of bad_page) 0)
  = Thrown (js "timeout")
  /\ fst (searchNotion wiki_env wiki_store (js "vacaciones"))
     = Returned [rendered notes_page (js "Hello");
                 rendered padded_page padded_text]
  /\ In (ConsoleError (error_line bad_page) (js "timeout"))
        (snd (searchNotion wiki_env wiki_store (js "vacaciones"))).
Proof.
  split; [vm_compute; reflexivity|]. split; [exact searchNotion_wiki|].
  vm_compute. right. right. right. right. left. reflexivity.
Qed.

(** C8: the output follows the order of the filtered results and is cut
    at five candidates: its pages are the renderings, in order, of a
    subsequence of the first five results that passed the scope filter
    (which themselves keep the order of the search results), so there are
    at most five. *)
Theorem searchNotion_order env notion query pages :
  fst (searchNotion env notion query) = Returned pages ->
  exists results chosen,
    search notion query = inr results
    /\ subsequence
         (filter_by_database (NOTION_DATABASE_ID env) results) results
    /\ subsequence chosen
         (firstn 5 (filter_by_database (NOTION_DATABASE_ID env) results))
    /\ Forall2 (fun r p => exists result c,
                  r = FullPage result /\ p = rendered result c)
               chosen pages
    /\ List.length pages <= 5.
Proof.
  intros Hret.
  destruct (searchNotion_search_answered env notion query pages Hret)
    as (results & Hs).
  rewrite (searchNotion_pages env notion query results Hs) in Hret.
  injection Hret as <-.
  destruct (rendering_subsequence notion (candidates env results))
    as (chosen & Hsub & Hall).
  exists results, chosen. repeat split; auto.
  - apply filter_by_database_subsequence.
  - rewrite <- (Forall2_length Hall).
    apply subsequence_length in Hsub.
    unfold candidates in Hsub. rewrite length_firstn in Hsub. lia.
Qed.

Lemma searchNotion_order_witness :
  exists results chosen,
    search wiki_store (js "vacaciones") = inr results
    /\ subsequence
         (filter_by_database (NOTION_DATABASE_ID wiki_env) results) results
    /\ subsequence chosen
         (firstn 5 (filter_by_database (NOTION_DATABASE_ID wiki_env) results))
    /\ Forall2 (fun r p => exists result c,
                  r = FullPage result /\ p = rendered result c)
               chosen
               [rendered notes_page (js "Hello");
                rendered padded_page padded_text]
    /\ List.length [rendered notes_page (js "Hello");
                    rendered padded_page padded_text] <= 5.
Proof.
  apply (searchNotion_order wiki_env wiki_store (js "vacaciones")).
  vm_compute. reflexivity.
Defined.

(** C10: the default title is for a page with no title property.  A page
    whose first title property has an empty rich text gets the empty
    title, which is not the default, and when it is a candidate whose
    flattened text is not blank it is in the output with that empty
    title. *)
Theorem extractPageTitle_empty_title_kept
    env notion query results result before name after c :
  properties result = before ++ (name, title_property []) :: after ->
  (forall other, In other before -> is_title_property (snd other) = false) ->
  search notion query = inr results ->
  In (FullPage result) (candidates env results) ->
  fst (extractBlockContent notion (page_id_of result) 0) = Returned c ->
  trim c <> [] ->
  extractPageTitle result = []
  /\ extractPageTitle result <> js "Sin título"
  /\ (exists pages,
        fst (searchNotion env notion query) = Returned pages
        /\ In {| id := page_id_of result; title := [];
                 url := page_url result; content := slice0 3000 c |} pages)
  /\ (forall page,
        (forall prop, In prop (properties page) ->
                      is_title_property (snd prop) = false) ->
        extractPageTitle page = js "Sin título").
Proof.
  intros Hprops Hbefore Hs Hin Hc Htrim.
  assert (Htitle : extractPageTitle result = []).
  { apply (extractPageTitle_first result before name [] after); auto. }
  split; [exact Htitle|]. split; [rewrite Htitle; vm_compute; discriminate|].
  split.
  - eexists. split; [apply (searchNotion_pages env notion query results Hs)|].
    apply in_flat_map. exists (FullPage result). split; [exact Hin|].
    cbn [rendering]. rewrite Hc.
    apply truthy_true in Htrim. rewrite Htrim.
    left. unfold rendered. now rewrite Htitle.
  - apply extractPageTitle_default.
Qed.

Lemma extractPageTitle_empty_title_kept_witness :
  extractPageTitle notes_page = []
  /\ extractPageTitle notes_page <> js "Sin título"
  /\ (exists pages,
        fst (searchNotion wiki_env wiki_store (js "vacaciones"))
        = Returned pages
        /\ In {| id := page_id_of notes_page; title := [];
                 url := page_url notes_page;
                 content := slice0 3000 (js "Hello") |} pages)
  /\ (forall page,
        (forall prop, In prop (properties page) ->
                      is_title_property (snd prop) = false) ->
        extractPageTitle page = js "Sin título").
Proof.
  apply (extractPageTitle_empty_title_kept wiki_env wiki_store
           (js "vacaciones") wiki_results notes_page
           [(js "Tags", other_property (js "multi_select"))]
           (js "Name") [] (js "Hello")).
  - reflexivity.
  - intros other [<-|[]]. reflexivity.
  - reflexivity.
  - vm_compute. right. right. left. reflexivity.
  - vm_compute. reflexivity.
  - vm_compute. discriminate.
Defined.

(** ** C6: the scope filter *)

Lemma normalizeId_hyphen_variant a b :
  hyphen_variant a b -> normalizeId a = normalizeId b.
Proof.
  unfold normalizeId, remove_all.
  induction 1 as [|c a b _ IH|a b _ IH|a b _ IH]; simpl; auto.
  destruct (negb (c =? 45)%N); congruence.
Qed.

Lemma hyphen_variant_normalizeId a b :
  normalizeId a = normalizeId b -> hyphen_variant a b.
Proof.
  unfold normalizeId, remove_all. revert b.
  induction a as [|c a IHa]; intros b; simpl.
  - induction b as [|c' b IHb]; simpl; [constructor|].
    destruct (c' =? 45)%N eqn:E; simpl; [|discriminate].
    apply N.eqb_eq in E. subst c'. intros H. constructor. now apply IHb.
  - destruct (c =? 45)%N eqn:E; simpl.
    + apply N.eqb_eq in E. subst c. intros H. constructor. now apply IHa.
    + induction b as [|c' b IHb]; simpl; [discriminate|].
      destruct (c' =? 45)%N eqn:E'; simpl.
      * apply N.eqb_eq in E'. subst c'. intros H. constructor. now apply IHb.
      * intros H. injection H as -> H. constructor. now apply IHa.
Qed.

Example normalizeId_example :
  normalizeId (js "abc-123") = js "abc123"
  /\ hyphen_variant (js "abc-123") (js "abc123").
Proof.
  split; [reflexivity|]. apply hyphen_variant_normalizeId. reflexivity.
Qed.

(** C6: with a database configured, a search result passes the scope
    filter exactly when it is a full page whose parent is a database with
    the configured identifier up to hyphens; identifiers differ by hyphens
    only exactly when [normalizeId] makes them equal.  A partial page and
    a page with another kind of parent do not pass. *)
Theorem filter_by_database_normalized databaseId results r :
  truthy databaseId = true ->
  (In r (filter_by_database (Some databaseId) results) <->
   In r results
   /\ exists result d,
        r = FullPage result
        /\ parent result = database_id d
        /\ hyphen_variant d databaseId)
  /\ (forall d, hyphen_variant d databaseId <->
                normalizeId d = normalizeId databaseId).
Proof.
  intros Ht. split.
  - unfold filter_by_database. rewrite Ht, filter_In.
    split; intros [Hin H]; (split; [exact Hin|]).
    + destruct r as [result|i]; simpl in H; [|discriminate].
      destruct (parent result) as [d| | |] eqn:Hp; try discriminate.
      apply eqb_eq in H. exists result, d.
      repeat split; auto. now apply hyphen_variant_normalizeId.
    + destruct H as (result & d & -> & Hp & Hv). simpl. rewrite Hp.
      apply eqb_eq. now apply normalizeId_hyphen_variant.
  - intros d. split;
      [apply normalizeId_hyphen_variant|apply hyphen_variant_normalizeId].
Qed.

Lemma filter_by_database_normalized_witness :
  truthy (js "abc123") = true
  /\ (In (FullPage notes_page)
         (filter_by_database (Some (js "abc123")) wiki_results) <->
      In (FullPage notes_page) wiki_results
      /\ exists result d,
           FullPage notes_page = FullPage result
           /\ parent result = database_id d
           /\ hyphen_variant d (js "abc123")).
Proof.
  split; [reflexivity|].
  exact (proj1 (filter_by_database_normalized (js "abc123") wiki_results
                  (FullPage notes_page) eq_refl)).
Defined.

(** ** C5: no page, no model call *)


(** ** C9: scenario C *)

(** C9: when the container holds one paragraph "Hello" that has children,
    and that paragraph holds one bulleted item "World" without children,
    flattening the container at depth 0 returns the two lines
    "Hello" and "• World" joined by one newline, after two fetches. *)
Theorem extractBlockContent_scenario_C notion root p w :
  blocks_children_list notion root
  = inr [FullBlock {| block_id := p; has_children := true;
                      block_type := paragraph (rich (js "Hello")) |}] ->
  blocks_children_list notion p
  = inr [FullBlock {| block_id := w; has_children := false;
                      block_type := bulleted_list_item
                                      (rich (js "World")) |}] ->
  extractBlockContent notion root 0
  = (Returned (js "Hello" ++ LF ++ js "• World"),
     [BlocksChildrenList root 50; BlocksChildrenList p 50]).
Proof.
  intros Hroot Hp.
  assert (Hinner : extractBlockContent_fuel notion 2 p 1
                   = (Returned (js "• World"), [BlocksChildrenList p 50])).
  { cbn [extractBlockContent_fuel]. unfold extractBlockContent_body at 1.
    cbn [Nat.ltb Nat.leb]. rewrite Hp. vm_compute. reflexivity. }
  unfold extractBlockContent.
  change (extractBlockContent_fuel notion 3 root 0)
    with (extractBlockContent_body notion (extractBlockContent_fuel notion 2)
            root 0).
  unfold extractBlockContent_body.
  cbn [Nat.ltb Nat.leb]. rewrite Hroot. unfold await.
  rewrite bind_returned.
  cbn [extractBlockContent_loop has_children block_id andb Nat.ltb Nat.leb
       Nat.add].
  rewrite Hinner. vm_compute. reflexivity.
Qed.

Lemma extractBlockContent_scenario_C_witness :
  extractBlockContent hello_store (js "root") 0
  = (Returned (js "Hello" ++ LF ++ js "• World"),
     [BlocksChildrenList (js "root") 50; BlocksChildrenList (js "p") 50]).
Proof.
  apply (extractBlockContent_scenario_C hello_store (js "root") (js "p")
           (js "w")); reflexivity.
Defined.

(** * Further properties of the code *)

(** ** Blank texts *)

Lemma trimStart_nil s : trimStart s = [] <-> blank s = true.
Proof.
  induction s as [|c s IH]; simpl; [tauto|].
  destruct (is_white_space c); simpl; [exact IH|].
  split; discriminate.
Qed.

Lemma trimStart_blank s : blank (trimStart s) = blank s.
Proof.
  induction s as [|c s IH]; simpl; auto.
  destruct (is_white_space c) eqn:E; simpl; auto. now rewrite E.
Qed.

Lemma blank_rev s : blank (List.rev s) = blank s.
Proof.
  unfold blank. induction s as [|c s IH]; simpl; auto.
  rewrite forallb_app, IH. simpl. rewrite andb_true_r. apply andb_comm.
Qed.

Lemma trim_nil s : trim s = [] <-> blank s = true.
Proof.
  unfold trim, trimEnd. split.
  - intros H. apply (f_equal (@List.rev N)) in H.
    rewrite rev_involutive in H. simpl in H.
    apply trimStart_nil in H. now rewrite blank_rev, trimStart_blank in H.
  - intros H. rewrite <- trimStart_blank, <- blank_rev in H.
    apply trimStart_nil in H. now rewrite H.
Qed.

Lemma truthy_trim s : truthy (trim s) = negb (blank s).
Proof.
  destruct (blank s) eqn:E.
  - apply trim_nil in E. now rewrite E.
  - destruct (trim s) eqn:T; auto.
    apply trim_nil in T. congruence.
Qed.

Lemma blank_app a b : blank (a ++ b) = blank a && blank b.
Proof. apply forallb_app. Qed.

Lemma blank_nil_or s : blank s = false -> s <> [].
Proof. intros H ->. discriminate. Qed.

Lemma join_not_blank sep l :
  l <> [] -> Forall (fun s => blank s = false) l -> blank (join sep l) = false.
Proof.
  intros Hne Hall. destruct Hall as [|s l Hs Hl]; [congruence|].
  simpl. destruct l; auto. now rewrite blank_app, Hs.
Qed.

Lemma filter_truthy_not_blank l :
  Forall (fun s => blank s = false) l -> filter truthy l = l.
Proof.
  induction 1 as [|s l Hs _ IH]; simpl; auto.
  destruct s; [discriminate|]. simpl. now rewrite IH.
Qed.

(** ** C2: the page separator and the block markers *)

Lemma trimStart_last l c :
  is_white_space c = false -> exists l', trimStart (l ++ [c]) = l' ++ [c].
Proof.
  intros Hc. induction l as [|d l IH]; cbn [app trimStart].
  - rewrite Hc. now exists [].
  - destruct (is_white_space d); [exact IH|]. now exists (d :: l).
Qed.

Lemma trim_head c s :
  is_white_space c = false -> exists s', trim (c :: s) = c :: s'.
Proof.
  intros Hc. unfold trim, trimEnd. cbn [trimStart]. rewrite Hc.
  cbn [List.rev]. destruct (trimStart_last (List.rev s) c Hc) as [l' ->].
  rewrite rev_app_distr. cbn [List.rev app]. now exists (List.rev l').
Qed.

Example page_separator_marker : trim PAGE_SEPARATOR = js "---".
Proof. reflexivity. Qed.

(* Turns the literals of the goal into their code units. *)
Ltac literals :=
  repeat match goal with
         | |- context [js ?s] =>
             let v := eval vm_compute in (js s) in change (js s) with v
         end;
  let m := eval vm_compute in (trim PAGE_SEPARATOR) in
  change (trim PAGE_SEPARATOR) with m;
  let v := eval vm_compute in PAGE_SEPARATOR in
  change PAGE_SEPARATOR with v;
  cbn [app].

Lemma block_text_not_separator b :
  renders_raw_text (block_type b) = false ->
  block_type b <> divider ->
  trim (block_text b) <> trim PAGE_SEPARATOR
  /\ block_text b <> PAGE_SEPARATOR.
Proof.
  intros Hraw Hdiv. unfold block_text.
  destruct (block_type b) as
    [rt|rt|rt|rt|rt|rt|rt [|]|rt|rt|rt|rt lang|cells| |tag];
    try discriminate Hraw; try (now elim Hdiv); literals;
    first
      [ match goal with
        | |- trim (?c :: ?s) <> _ /\ _ =>
            destruct (trim_head c s eq_refl) as [s' E]; rewrite E
        end; split; discriminate
      | split; [vm_compute|]; discriminate ].
Qed.

(* The statement C2 fails on is not out of reach: with another marker
   than the divider's, no block kind that emits a marker renders to it. *)
Lemma block_text_other_marker b :
  renders_raw_text (block_type b) = false ->
  block_text b <> js "=====".
Proof.
  intros Hraw. unfold block_text.
  destruct (block_type b) as
    [rt|rt|rt|rt|rt|rt|rt [|]|rt|rt|rt|rt lang|cells| |tag];
    try discriminate Hraw;
    repeat match goal with
           | |- context [js ?s] =>
               let v := eval vm_compute in (js s) in change (js s) with v
           end;
    cbn [app]; discriminate.
Qed.

Lemma extractBlockContent_divider_between notion root x y first rule last :
  blank x = false ->
  blank y = false ->
  blocks_children_list notion root
  = inr [FullBlock {| block_id := first; has_children := false;
                      block_type := paragraph (rich (x ++ LF)) |};
         FullBlock {| block_id := rule; has_children := false;
                      block_type := divider |};
         FullBlock {| block_id := last; has_children := false;
                      block_type := paragraph (rich (LF ++ y)) |}] ->
  fst (extractBlockContent notion root 0)
  = Returned (x ++ PAGE_SEPARATOR ++ y).
Proof.
  intros Hx Hy Hroot. unfold extractBlockContent.
  cbn [extractBlockContent_fuel]. unfold extractBlockContent_body at 1.
  cbn [Nat.ltb Nat.leb]. rewrite Hroot. unfold await.
  rewrite bind_returned.
  cbn [extractBlockContent_loop has_children andb].
  unfold block_text, extractRichText, rich.
  cbn [block_type map plain_text join].
  rewrite !truthy_trim, !blank_app, Hx, Hy, andb_false_r.
  change (blank (js "---")) with false.
  cbn [andb negb app]. run. cbn [app filter].
  assert (Hne : forall s, blank s = false -> truthy s = true)
    by (intros [|c s]; [discriminate|reflexivity]).
  rewrite (Hne (x ++ LF)), (Hne (LF ++ y))
    by (rewrite blank_app; rewrite ?Hx, ?Hy, ?andb_false_r; reflexivity).
  change (truthy (js "---")) with true.
  cbn [join]. unfold PAGE_SEPARATOR. now rewrite <- !app_assoc.
Qed.

(** C2, as the code has it: the separator between two pages of the
    context is the marker "---" between blank lines, and that marker is
    reused: it is the text of a divider block, so a page made of a
    paragraph that ends with a newline, a divider and a paragraph that
    starts with a newline holds the whole separator.  The other kinds
    that emit a marker (heading, bulleted item, to-do, quote, callout,
    code block) and an unsupported block never render to the separator
    or to its marker, whatever their text; the kinds that render their
    text alone (paragraph, numbered item, toggle, one-cell table row)
    render to it only when their text is it. *)
Theorem page_separator_and_block_markers :
  (forall b, block_type b = divider ->
     block_text b = trim PAGE_SEPARATOR
     /\ PAGE_SEPARATOR = LF ++ LF ++ block_text b ++ LF ++ LF)
  /\ (forall notion root x y first rule last,
        blank x = false ->
        blank y = false ->
        blocks_children_list notion root
        = inr [FullBlock {| block_id := first; has_children := false;
                            block_type := paragraph (rich (x ++ LF)) |};
               FullBlock {| block_id := rule; has_children := false;
                            block_type := divider |};
               FullBlock {| block_id := last; has_children := false;
                            block_type := paragraph (rich (LF ++ y)) |}] ->
        fst (extractBlockContent notion root 0)
        = Returned (x ++ PAGE_SEPARATOR ++ y))
  /\ (forall b,
        renders_raw_text (block_type b) = false ->
        block_type b <> divider ->
        trim (block_text b) <> trim PAGE_SEPARATOR
        /\ block_text b <> PAGE_SEPARATOR)
  /\ (forall b s,
        block_type b = paragraph (rich s)
        \/ block_type b = numbered_list_item (rich s)
        \/ block_type b = toggle (rich s)
        \/ block_type b = table_row [rich s] ->
        block_text b = s).
Proof.
  split; [|split; [|split]].
  - intros b Hb. unfold block_text. rewrite Hb.
    split; reflexivity.
  - apply extractBlockContent_divider_between.
  - apply block_text_not_separator.
  - intros b s H. unfold block_text.
    destruct H as [H|[H|[H|H]]]; rewrite H; reflexivity.
Qed.

Lemma page_separator_and_block_markers_witness :
  fst (extractBlockContent ruled_store (js "root") 0)
  = Returned (js "a" ++ PAGE_SEPARATOR ++ js "b")
  /\ trim (block_text {| block_id := js "h"; has_children := false;
                         block_type := heading_2 (rich (js "---")) |})
     <> trim PAGE_SEPARATOR.
Proof.
  destruct page_separator_and_block_markers as (_ & Hpage & Hother & _).
  split.
  - apply (Hpage ruled_store (js "root") (js "a") (js "b")
             (js "p1") (js "d") (js "p2")); reflexivity.
  - apply (Hother {| block_id := js "h"; has_children := false;
                     block_type := heading_2 (rich (js "---")) |}).
    + reflexivity.
    + discriminate.
Defined.

(** C2 as stated fails, and not because of the text of a document: among
    the kinds that emit a marker of their own, the divider block renders
    to the very marker of the separator. *)
Lemma divider_is_page_separator_marker :
  ~ (forall b,
        renders_raw_text (block_type b) = false ->
        block_text b <> trim PAGE_SEPARATOR).
Proof.
  intros H.
  apply (H {| block_id := js "d"; has_children := false;
              block_type := divider |}); reflexivity.
Qed.

(** ** The flattener, further *)

Section FlattenerMore.

Variable notion : Notion.

Lemma extractBlockContent_loop_inked self depth results lines :
  (forall blockId, inked (self blockId (depth + 1))) ->
  Forall (fun s => blank s = false) lines ->
  forall lines',
    fst (extractBlockContent_loop self depth results lines)
    = Returned lines' ->
    Forall (fun s => blank s = false) lines'.
Proof.
  intros Hself. revert lines.
  induction results as [|[i|b] rest IH]; intros lines Hlines lines';
    cbn [extractBlockContent_loop].
  - intros H. injection H as <-. exact Hlines.
  - apply IH. exact Hlines.
  - assert (Hown : Forall (fun s => blank s = false)
                     (if truthy (trim (block_text b))
                      then lines ++ [block_text b] else lines)).
    { rewrite truthy_trim. destruct (blank (block_text b)) eqn:E; simpl; auto.
      apply Forall_app. split; auto. }
    destruct (has_children b && (depth <? 2)); [|now apply IH].
    specialize (Hself (block_id b)).
    destruct (self (block_id b) (depth + 1)) as [[c|e|] w]; run;
      try discriminate.
    apply IH. destruct (Hself c eq_refl) as [->|Hc]; simpl; auto.
    destruct c; [discriminate|]. simpl.
    apply Forall_app. split; auto.
Qed.

Lemma extractBlockContent_fuel_inked fuel blockId depth :
  inked (extractBlockContent_fuel notion fuel blockId depth).
Proof.
  revert blockId depth. induction fuel as [|f IH]; intros blockId depth c;
    cbn [extractBlockContent_fuel]; [discriminate|].
  unfold extractBlockContent_body.
  destruct (3 <? depth); [intros H; injection H as <-; now left|].
  destruct (blocks_children_list notion blockId) as [e|results]; run;
    [discriminate|].
  pose proof (extractBlockContent_loop_inked
                (extractBlockContent_fuel notion f) depth results []
                (fun b => IH b (depth + 1)) (Forall_nil _)) as Hl.
  destruct (extractBlockContent_loop _ depth results []) as [[ls|e|] w]; run;
    try discriminate.
  intros H. injection H as <-. specialize (Hl ls eq_refl).
  rewrite (filter_truthy_not_blank ls Hl).
  destruct ls as [|l ls]; [now left|right].
  apply join_not_blank; [discriminate|exact Hl].
Qed.

Lemma extractBlockContent_loop_leaf_value self depth results lines :
  2 <= depth ->
  extractBlockContent_loop self depth results lines
  = (Returned (lines ++ own_lines results), []).
Proof.
  intros Hd. revert lines.
  induction results as [|[i|b] rest IH]; intros lines;
    cbn [extractBlockContent_loop own_lines flat_map].
  - now rewrite app_nil_r.
  - apply IH.
  - replace (depth <? 2) with false by (symmetry; apply Nat.ltb_ge; lia).
    rewrite andb_false_r, IH. fold (own_lines rest).
    destruct (truthy (trim (block_text b))); simpl; auto.
    now rewrite <- app_assoc.
Qed.

Lemma own_lines_not_blank results :
  Forall (fun s => blank s = false) (own_lines results).
Proof.
  unfold own_lines. induction results as [|[i|b] rest IH]; simpl; auto.
  rewrite truthy_trim. destruct (blank (block_text b)) eqn:E; simpl; auto.
Qed.

Lemma extractBlockContent_loop_fails self depth results lines e :
  (forall blockId, fails_at_fetch notion (self blockId (depth + 1))) ->
  fst (extractBlockContent_loop self depth results lines) = Thrown e ->
  exists w b,
    snd (extractBlockContent_loop self depth results lines)
    = w ++ [BlocksChildrenList b 50]
    /\ blocks_children_list notion b = inl e.
Proof.
  intros Hself. revert lines.
  induction results as [|[i|b] rest IH]; intros lines;
    cbn [extractBlockContent_loop].
  - discriminate.
  - apply IH.
  - destruct (has_children b && (depth <? 2)); [|apply IH].
    specialize (Hself (block_id b)).
    destruct (self (block_id b) (depth + 1)) as [[c|e'|] w] eqn:E; run.
    + intros H. destruct (IH _ H) as (w' & b' & Hw & Hb).
      exists (w ++ w'), b'. rewrite Hw, app_assoc. auto.
    + intros H. injection H as ->. apply (Hself e eq_refl).
    + discriminate.
Qed.

Lemma extractBlockContent_fuel_fails fuel blockId depth :
  fails_at_fetch notion (extractBlockContent_fuel notion fuel blockId depth).
Proof.
  revert blockId depth. induction fuel as [|f IH]; intros blockId depth e;
    cbn [extractBlockContent_fuel]; [discriminate|].
  unfold extractBlockContent_body.
  destruct (3 <? depth); [discriminate|].
  destruct (blocks_children_list notion blockId) as [e'|results] eqn:E; run.
  - intros H. injection H as ->. exists [], blockId. auto.
  - pose proof (extractBlockContent_loop_fails
                  (extractBlockContent_fuel notion f) depth results [] e
                  (fun b => IH b (depth + 1))) as Hl.
    destruct (extractBlockContent_loop _ depth results []) as [[ls|e'|] w];
      run; try discriminate.
    intros H. injection H as ->.
    destruct (Hl eq_refl) as (w' & b & Hw & Hb). cbn [snd] in Hw.
    exists (BlocksChildrenList blockId 50 :: w'), b. rewrite Hw. auto.
Qed.

Lemma extractBlockContent_fetches_bound blockId depth n :
  page_bounded notion n ->
  fetches (snd (extractBlockContent notion blockId depth)) <= 1 + n + n * n.
Proof.
  intros Hn. unfold extractBlockContent. cbn [extractBlockContent_fuel].
  assert (H1 : forall b d,
             fetches (snd (extractBlockContent_body notion
                             (fun _ _ => out_of_fuel) b d)) <= 1).
  { intros b d.
    pose proof (extractBlockContent_body_fetches notion
                  (fun _ _ => out_of_fuel) b d n 0 Hn) as H.
    rewrite Nat.mul_0_r in H. apply H. intros; apply Nat.le_0_l. }
  assert (H2 : forall b d,
             fetches (snd (extractBlockContent_body notion
                             (extractBlockContent_body notion
                                (fun _ _ => out_of_fuel)) b d)) <= 1 + n).
  { intros b d.
    pose proof (extractBlockContent_body_fetches notion
                  (extractBlockContent_body notion (fun _ _ => out_of_fuel))
                  b d n 1 Hn) as H.
    rewrite Nat.mul_1_r in H. apply H. intros; apply H1. }
  pose proof (extractBlockContent_body_fetches notion
                (extractBlockContent_body notion
                   (extractBlockContent_body notion (fun _ _ => out_of_fuel)))
                blockId depth n (1 + n) Hn) as H3.
  rewrite Nat.mul_add_distr_l, Nat.mul_1_r in H3.
  rewrite Nat.add_assoc in H3. apply H3. intros; apply H2.
Qed.

End FlattenerMore.

(** X1: The flattened text is never made of white space only: it is empty or
    it has a character [trim] keeps.  So the test [content.trim()] of
    [searchNotion] rejects exactly the empty text. *)
Theorem extractBlockContent_never_blank notion blockId depth c :
  fst (extractBlockContent notion blockId depth) = Returned c ->
  c <> [] ->
  trim c <> [].
Proof.
  intros Hc Hne Ht. apply trim_nil in Ht.
  destruct (extractBlockContent_fuel_inked notion 3 blockId depth c Hc);
    congruence.
Qed.

Lemma extractBlockContent_never_blank_witness :
  trim (js "Hello" ++ LF ++ js "• World") <> [].
Proof.
  apply (extractBlockContent_never_blank hello_store (js "root") 0).
  - vm_compute. reflexivity.
  - vm_compute. discriminate.
Defined.

(** X2: At depth 2 and 3 the children of the blocks are not followed: the
    flattener makes its one fetch and returns the texts of the full blocks
    that are not blank, joined by newlines, whatever [has_children] says;
    partial blocks and blank texts leave no line. *)
Theorem extractBlockContent_leaf_level notion blockId depth results :
  2 <= depth -> depth <= 3 ->
  blocks_children_list notion blockId = inr results ->
  extractBlockContent notion blockId depth
  = (Returned (join LF (own_lines results)), [BlocksChildrenList blockId 50]).
Proof.
  intros Hlo Hhi Hr. unfold extractBlockContent.
  cbn [extractBlockContent_fuel]. unfold extractBlockContent_body at 1.
  replace (3 <? depth) with false by (symmetry; apply Nat.ltb_ge; lia).
  rewrite Hr. unfold await. rewrite bind_returned.
  rewrite (extractBlockContent_loop_leaf_value _ depth results [] Hlo).
  run. cbn [app].
  now rewrite (filter_truthy_not_blank _ (own_lines_not_blank results)).
Qed.

Lemma extractBlockContent_leaf_level_witness :
  extractBlockContent cyclic_store (js "a") 2
  = (Returned (js "a"), [BlocksChildrenList (js "a") 50]).
Proof.
  apply (extractBlockContent_leaf_level cyclic_store (js "a") 2
           [FullBlock {| block_id := js "a"; has_children := true;
                         block_type := toggle (rich (js "a")) |}]);
    [lia|lia|reflexivity].
Defined.

(** X3: The flattener does not catch: when it throws, the last thing it did
    is a fetch the store refused, and the error is that fetch's.  The
    lines collected before are lost. *)
Theorem extractBlockContent_stops_at_failed_fetch notion blockId depth e :
  fst (extractBlockContent notion blockId depth) = Thrown e ->
  exists w b,
    snd (extractBlockContent notion blockId depth)
    = w ++ [BlocksChildrenList b 50]
    /\ blocks_children_list notion b = inl e.
Proof. apply extractBlockContent_fuel_fails. Qed.

Lemma extractBlockContent_stops_at_failed_fetch_witness :
  exists w b,
    snd (extractBlockContent hello_store (js "w") 0)
    = w ++ [BlocksChildrenList b 50]
    /\ blocks_children_list hello_store b = inl (js "object_not_found").
Proof.
  apply (extractBlockContent_stops_at_failed_fetch hello_store (js "w") 0).
  vm_compute. reflexivity.
Defined.

(** X4: A block of a kind with a marker always gives a line, even when its
    rich text is empty: the text of a heading, bulleted item, to-do,
    quote, callout, code block or divider is never blank. *)
Theorem block_text_marker_not_blank b :
  renders_raw_text (block_type b) = false ->
  (forall tag, block_type b <> unsupported tag) ->
  trim (block_text b) <> [].
Proof.
  intros Hraw Hsup Ht. apply trim_nil in Ht. revert Ht.
  unfold block_text.
  destruct (block_type b) as
    [rt|rt|rt|rt|rt|rt|rt [|]|rt|rt|rt|rt lang|cells| |tag];
    try discriminate Hraw;
    try (exfalso; exact (Hsup tag eq_refl));
    match goal with
    | |- context [js ?s] =>
        let v := eval vm_compute in (js s) in change (js s) with v
    end;
    cbn [app blank forallb]; discriminate.
Qed.

Lemma block_text_marker_not_blank_witness :
  trim (block_text {| block_id := js "h"; has_children := false;
                      block_type := heading_2 [] |}) <> [].
Proof.
  apply block_text_marker_not_blank.
  - reflexivity.
  - intros tag. discriminate.
Defined.

(** ** The selector, further *)

Lemma search_calls_app (w1 w2 : list event) :
  search_calls (w1 ++ w2) = search_calls w1 + search_calls w2.
Proof. unfold search_calls. now rewrite filter_app, length_app. Qed.

Lemma search_calls_fetches w : Forall is_fetch w -> search_calls w = 0.
Proof.
  induction 1 as [|ev w Hev _ IH]; auto.
  destruct ev; try destruct Hev. exact IH.
Qed.

Lemma searchNotion_loop_counts notion n results pages :
  page_bounded notion n ->
  fetches (snd (searchNotion_loop notion results pages))
  <= List.length results * (1 + n + n * n)
  /\ search_calls (snd (searchNotion_loop notion results pages)) = 0.
Proof.
  intros Hn. revert pages.
  induction results as [|[result|i] rest IH]; intros pages;
    cbn [searchNotion_loop List.length].
  - split; [apply Nat.le_0_l|reflexivity].
  - pose proof (extractBlockContent_fetches_bound notion
                  (page_id_of result) 0 n Hn) as Hf.
    pose proof (search_calls_fetches _
                  (extractBlockContent_fuel_events notion 3
                     (page_id_of result) 0)) as Hs.
    fold (extractBlockContent notion (page_id_of result) 0) in Hs.
    destruct (extractBlockContent notion (page_id_of result) 0)
      as [[c|e|] w]; cbn [snd] in Hf, Hs; run;
      [destruct (truthy (trim c)); run| |];
      rewrite ?fetches_app, ?search_calls_app, ?Hs;
      try (match goal with
           | |- context [searchNotion_loop notion rest ?p] =>
               destruct (IH p) as [IH1 IH2]; rewrite ?IH2
           end);
      change (fetches []) with 0; cbn [Nat.mul Nat.add];
      split; try reflexivity;
      repeat match goal with
             | |- context [fetches [?ev]] => change (fetches [ev]) with 0
             end;
      lia.
  - destruct (IH pages) as [IH1 IH2]. split; [lia|exact IH2].
Qed.

(** X5: One query costs one search call and at most five flattenings: when
    no answer of the store has more than [n] blocks, [searchNotion] makes
    at most [5 * (1 + n + n * n)] block fetches. *)
Theorem searchNotion_calls_bounded env notion query n :
  page_bounded notion n ->
  fetches (snd (searchNotion env notion query)) <= 5 * (1 + n + n * n)
  /\ search_calls (snd (searchNotion env notion query)) = 1.
Proof.
  intros Hn. unfold searchNotion.
  destruct (search notion query) as [e|results]; run.
  - split; [apply Nat.le_0_l|reflexivity].
  - destruct (searchNotion_loop_counts notion n
                (firstn 5 (filter_by_database (NOTION_DATABASE_ID env)
                             results)) [] Hn) as [H1 H2].
    rewrite !fetches_app, !search_calls_app, H2.
    split; [|reflexivity].
    repeat match goal with
           | |- context [fetches [?ev]] => change (fetches [ev]) with 0
           end.
    pose proof (firstn_le_length 5
                  (filter_by_database (NOTION_DATABASE_ID env) results)) as Hl.
    apply (Nat.mul_le_mono_r _ _ (1 + n + n * n)) in Hl. lia.
Qed.

Lemma searchNotion_calls_bounded_witness :
  fetches (snd (searchNotion wiki_env wiki_store (js "vacaciones")))
  <= 5 * (1 + 1 + 1 * 1)
  /\ search_calls (snd (searchNotion wiki_env wiki_store (js "vacaciones")))
     = 1.
Proof.
  apply (searchNotion_calls_bounded wiki_env wiki_store (js "vacaciones") 1).
  intros blockId results. unfold wiki_store, blocks_children_list.
  repeat match goal with
         | |- context [if ?c then _ else _] => destruct c
         end; intros H; try discriminate H; injection H as <-; simpl; lia.
Defined.

(** X6: [searchNotion] throws exactly when the search call throws, with the
    error of that call and before any block is fetched: a failure inside
    the loop never reaches the caller. *)
Theorem searchNotion_throws_iff env notion query e :
  (fst (searchNotion env notion query) = Thrown e <->
   search notion query = inl e)
  /\ (search notion query = inl e ->
      fetches (snd (searchNotion env notion query)) = 0).
Proof.
  split; [split|]; intros H.
  - destruct (search notion query) as [e'|results] eqn:Hs.
    + assert (Ht : fst (searchNotion env notion query) = Thrown e')
        by (unfold searchNotion; rewrite Hs; run; reflexivity).
      congruence.
    + rewrite (searchNotion_pages env notion query results Hs) in H.
      discriminate.
  - unfold searchNotion. rewrite H. run. reflexivity.
  - unfold searchNotion. rewrite H. run. reflexivity.
Qed.

(** X7: Every page of the output has a content of 1 to 3000 code units. *)
Theorem searchNotion_content_bounded env notion query pages :
  fst (searchNotion env notion query) = Returned pages ->
  Forall (fun p => 1 <= List.length (content p) <= 3000) pages.
Proof.
  intros Hret.
  destruct (searchNotion_search_answered env notion query pages Hret)
    as (results & Hs).
  rewrite (searchNotion_pages env notion query results Hs) in Hret.
  injection Hret as <-. apply Forall_forall. intros p Hp.
  destruct (rendering_origin notion _ p Hp) as (result & c & _ & _ & Hc & ->).
  cbn [rendered content]. unfold slice0. rewrite length_firstn.
  destruct c; [now elim Hc|]. cbn [List.length]. lia.
Qed.

Lemma searchNotion_content_bounded_witness :
  Forall (fun p => 1 <= List.length (content p) <= 3000)
         [rendered notes_page (js "Hello"); rendered padded_page padded_text].
Proof.
  apply (searchNotion_content_bounded wiki_env wiki_store (js "vacaciones")).
  vm_compute. reflexivity.
Defined.

(** X8: [normalizeId] removes the hyphens and nothing else: its result has no
    hyphen, an identifier without hyphens is left as it is, and
    normalizing twice is normalizing once. *)
Theorem normalizeId_idempotent id :
  normalizeId (normalizeId id) = normalizeId id
  /\ ~ In 45%N (normalizeId id)
  /\ (~ In 45%N id -> normalizeId id = id)
  /\ subsequence (normalizeId id) id.
Proof.
  unfold normalizeId, remove_all. repeat split.
  - induction id as [|c id IH]; simpl; auto.
    destruct (c =? 45)%N eqn:E; simpl; [exact IH|]. now rewrite E, IH.
  - intros Hin. apply filter_In in Hin. destruct Hin as [_ H].
    now rewrite N.eqb_refl in H.
  - induction id as [|c id IH]; simpl; auto. intros H.
    destruct (c =? 45)%N eqn:E; simpl.
    + apply N.eqb_eq in E. subst c. elim H. now left.
    + rewrite IH; auto.
  - apply filter_subsequence.
Qed.

(** X9: The title of a page is the text of its first title property, the
    plain texts of its fragments put together in order; properties of
    other types before it and any property after it are ignored. *)
Theorem extractPageTitle_first_title page before name t after :
  properties page = before ++ (name, title_property t) :: after ->
  (forall other, In other before -> is_title_property (snd other) = false) ->
  extractPageTitle page = List.concat (map plain_text t).
Proof.
  intros Hp Hb.
  rewrite (extractPageTitle_first page before name t after Hp Hb).
  unfold extractRichText. generalize (map plain_text t). intros l.
  induction l as [|x l IH]; simpl; auto.
  destruct l; [now rewrite app_nil_r|]. now rewrite <- IH.
Qed.

Lemma extractPageTitle_first_title_witness :
  extractPageTitle padded_page
  = List.concat (map plain_text (rich (js "Pad"))).
Proof.
  apply (extractPageTitle_first_title padded_page [] (js "Name")
           (rich (js "Pad")) []).
  - reflexivity.
  - intros other [].
Defined.

(** ** The synthesizer, further *)

Lemma find_text_skip tags rest :
  find (fun b => match b with text_block _ => true | _ => false end)
       (map other_block tags ++ rest)
  = find (fun b => match b with text_block _ => true | _ => false end) rest.
Proof. induction tags as [|tag tags IH]; simpl; auto. Qed.

Lemma generateAnswer_run anthropic query page pages :
  generateAnswer anthropic query (page :: pages)
  = (response <- ((Returned tt, [ConsoleLog (generating_line (page :: pages))])
                  ;; await (MessagesCreate (request query (page :: pages)))
                       (messages_create anthropic
                          (request query (page :: pages)))) ;;
     ret match find (fun b => match b with text_block _ => true
                                      | _ => false end) response with
         | Some (text_block t) => t
         | _ => NO_ANSWER
         end).
Proof.
  unfold generateAnswer, request, generating_line, emit.
  cbn [List.length Nat.eqb].
  destruct (messages_create anthropic _) as [e|response]; reflexivity.
Qed.

(** X10: With pages, [generateAnswer] prints one line, calls the model once
    with the fixed model name, 1024 tokens, the system prompt and the user
    message, and returns the text of the first text block of the response,
    whatever blocks of other types come before it. *)
Theorem generateAnswer_first_text anthropic query page pages tags t rest :
  messages_create anthropic (request query (page :: pages))
  = inr (map other_block tags ++ text_block t :: rest) ->
  generateAnswer anthropic query (page :: pages)
  = (Returned t,
     [ConsoleLog (generating_line (page :: pages));
      MessagesCreate (request query (page :: pages))]).
Proof.
  intros H. rewrite generateAnswer_run, H. run.
  now rewrite find_text_skip.
Qed.

Lemma generateAnswer_first_text_witness :
  generateAnswer chatty_model (js "q") [rendered notes_page (js "Hello")]
  = (Returned (js "Hola"),
     [ConsoleLog (generating_line [rendered notes_page (js "Hello")]);
      MessagesCreate (request (js "q") [rendered notes_page (js "Hello")])]).
Proof.
  apply (generateAnswer_first_text chatty_model (js "q")
           (rendered notes_page (js "Hello")) [] [js "tool_use"]
           (js "Hola") [text_block (js "Adiós")]).
  reflexivity.
Defined.

(** X11: When the response has no text block, [generateAnswer] returns the
    fixed "could not generate" text instead of failing. *)
Theorem generateAnswer_no_text anthropic query page pages tags :
  messages_create anthropic (request query (page :: pages))
  = inr (map other_block tags) ->
  fst (generateAnswer anthropic query (page :: pages)) = Returned NO_ANSWER.
Proof.
  intros H. rewrite generateAnswer_run, H. run.
  rewrite <- (app_nil_r (map other_block tags)), find_text_skip.
  reflexivity.
Qed.

Lemma generateAnswer_no_text_witness :
  fst (generateAnswer mute_model (js "q") [rendered notes_page (js "Hello")])
  = Returned NO_ANSWER.
Proof.
  apply (generateAnswer_no_text mute_model (js "q")
           (rendered notes_page (js "Hello")) [] [js "tool_use"]).
  reflexivity.
Defined.

(** X12: [generateAnswer] does not catch: an error of the model call is
    thrown to the caller, after the one call. *)
Theorem generateAnswer_model_error anthropic query page pages e :
  messages_create anthropic (request query (page :: pages)) = inl e ->
  generateAnswer anthropic query (page :: pages)
  = (Thrown e,
     [ConsoleLog (generating_line (page :: pages));
      MessagesCreate (request query (page :: pages))]).
Proof.
  intros H. rewrite generateAnswer_run, H. run. reflexivity.
Qed.

Lemma generateAnswer_model_error_witness :
  generateAnswer silent_model (js "q") [rendered notes_page (js "Hello")]
  = (Thrown (js "overloaded"),
     [ConsoleLog (generating_line [rendered notes_page (js "Hello")]);
      MessagesCreate (request (js "q") [rendered notes_page (js "Hello")])]).
Proof.
  apply (generateAnswer_model_error silent_model (js "q")
           (rendered notes_page (js "Hello")) [] (js "overloaded")).
  reflexivity.
Defined.

Lemma join_middle sep (l1 : list jsstring) x l2 :
  join sep (l1 ++ x :: l2)
  = List.concat (map (fun y => y ++ sep) l1) ++ x
    ++ match l2 with [] => [] | _ :: _ => sep ++ join sep l2 end.
Proof.
  induction l1 as [|y l1 IH]; cbn [app map List.concat].
  - destruct l2; cbn [join]; [now rewrite app_nil_r|reflexivity].
  - rewrite <- !app_assoc, <- IH. cbn [join].
    destruct l1; reflexivity.
Qed.

Lemma mapi_from_app {A B} (f : A -> nat -> B) l1 l2 i :
  mapi_from i f (l1 ++ l2)
  = mapi_from i f l1 ++ mapi_from (i + List.length l1) f l2.
Proof.
  revert i. induction l1 as [|x l1 IH]; intros i; cbn [app mapi_from].
  - now rewrite Nat.add_0_r.
  - rewrite IH. cbn [List.length]. now rewrite Nat.add_succ_r.
Qed.

(** X13: Every page reaches the model, in the order of the list: in the user
    message the context of a page (its 1-based number, title, URL and
    content) comes before the context of every later page, with the page
    separator after it. *)
Theorem userMessage_pages_in_order query before p mid q after :
  exists pre between post,
    userMessage query (before ++ p :: mid ++ q :: after)
    = pre ++ page_context p (List.length before)
      ++ PAGE_SEPARATOR ++ between
      ++ page_context q (List.length before + 1 + List.length mid)
      ++ post.
Proof.
  unfold userMessage, contextText, mapi.
  rewrite mapi_from_app. cbn [mapi_from].
  rewrite mapi_from_app. cbn [mapi_from Nat.add].
  rewrite join_middle.
  match goal with
  | |- context [mapi_from ?i page_context mid ++ ?x :: ?l] =>
      destruct (mapi_from i page_context mid ++ x :: l) eqn:E;
      [destruct (mapi_from i page_context mid); discriminate E|
       rewrite <- E, join_middle]
  end.
  exists (js "Contexto del wiki de Notion:" ++ LF ++ LF
          ++ List.concat (map (fun y => y ++ PAGE_SEPARATOR)
                            (mapi_from 0 page_context before))),
    (List.concat (map (fun y => y ++ PAGE_SEPARATOR)
                    (mapi_from (S (List.length before)) page_context mid))),
    (match mapi_from (S (S (List.length before + List.length mid)))
             page_context after with
     | [] => []
     | _ :: _ =>
         PAGE_SEPARATOR
         ++ join PAGE_SEPARATOR
              (mapi_from (S (S (List.length before + List.length mid)))
                 page_context after)
     end ++ LF ++ LF ++ js "---" ++ LF ++ LF ++ js "Pregunta: " ++ query).
  replace (List.length before + 1 + List.length mid)
    with (S (List.length before + List.length mid)) by lia.
  rewrite <- !app_assoc. reflexivity.
Qed.

(** ** index.ts: the mentions of a message *)

Lemma replace_mentions_from_skip a b :
  replace_mentions_from (List.length a) (a ++ b) = replace_mentions_from 0 b.
Proof.
  induction a as [|c a IH]; cbn [List.length app]; [reflexivity|].
  cbn [replace_mentions_from]. exact IH.
Qed.

Lemma class_run_app ident rest :
  forallb is_mention_char ident = true ->
  class_run (ident ++ 62%N :: rest) = List.length ident.
Proof.
  induction ident as [|c ident IH]; simpl; auto.
  intros H. apply andb_prop in H. destruct H as [Hc Hi].
  now rewrite Hc, IH.
Qed.

Lemma mention_length_mention ident rest :
  ident <> [] ->
  forallb is_mention_char ident = true ->
  mention_length (mention ident ++ rest) = Some (List.length ident + 3).
Proof.
  intros Hne Hc. unfold mention.
  change (js "<@") with [60%N; 64%N]. change (js ">") with [62%N].
  cbn [app mention_length N.eqb Pos.eqb andb].
  rewrite <- app_assoc. cbn [app].
  rewrite (class_run_app ident rest Hc).
  destruct ident as [|c ident]; [congruence|]. cbn [List.length].
  change (S (List.length ident)) with (List.length (c :: ident)).
  rewrite nth_error_app2, Nat.sub_diag; auto.
Qed.

Lemma mention_length_no_lt c s :
  c <> 60%N -> mention_length (c :: s) = None.
Proof.
  intros Hc. unfold mention_length. destruct s as [|d s]; auto.
  apply N.eqb_neq in Hc. now rewrite Hc.
Qed.

Lemma replace_mentions_prefix a b :
  Forall (fun c => c <> 60%N) a ->
  replace_mentions (a ++ b) = a ++ replace_mentions b.
Proof.
  unfold replace_mentions.
  induction 1 as [|c a Hc _ IH]; cbn [app]; auto.
  cbn [replace_mentions_from]. rewrite (mention_length_no_lt c _ Hc).
  now rewrite IH.
Qed.

Lemma replace_mentions_mention ident rest :
  ident <> [] ->
  forallb is_mention_char ident = true ->
  replace_mentions (mention ident ++ rest) = replace_mentions rest.
Proof.
  intros Hne Hc. unfold replace_mentions.
  pose proof (mention_length_mention ident rest Hne Hc) as Hm.
  assert (Hl : List.length (mention ident) = List.length ident + 3).
  { unfold mention. rewrite !length_app.
    change (List.length (js "<@")) with 2.
    change (List.length (js ">")) with 1. lia. }
  destruct (mention ident) as [|c m] eqn:E; [simpl in Hl; lia|].
  cbn [app replace_mentions_from] in *. rewrite Hm.
  replace (List.length ident + 3 - 1) with (List.length m)
    by (cbn [List.length] in Hl; lia).
  apply replace_mentions_from_skip.
Qed.

Lemma blank_no_lt s : blank s = true -> Forall (fun c => c <> 60%N) s.
Proof.
  unfold blank. rewrite forallb_forall, Forall_forall.
  intros H c Hin ->. specialize (H _ Hin). discriminate H.
Qed.

Lemma replace_mentions_from_subsequence skip s :
  subsequence (replace_mentions_from skip s) s.
Proof.
  revert skip. induction s as [|c s IH]; intros skip;
    cbn [replace_mentions_from]; [constructor|].
  destruct skip as [|k]; [|constructor; apply IH].
  destruct (mention_length (c :: s)); constructor; apply IH.
Qed.

Example replace_mentions_single_pass :
  replace_mentions (js "<@<@A>B> hola") = js "<@B> hola".
Proof. reflexivity. Qed.

(** X14: The replacement drops a mention, [<@] followed by capital letters
    and digits and [>], and keeps the text before it when that text has
    no [<]; what follows is treated the same way. *)
Theorem replace_mentions_drops_mention before ident rest :
  Forall (fun c => c <> 60%N) before ->
  ident <> [] ->
  forallb is_mention_char ident = true ->
  replace_mentions (before ++ mention ident ++ rest)
  = before ++ replace_mentions rest.
Proof.
  intros Hb Hne Hc.
  now rewrite (replace_mentions_prefix before _ Hb),
    (replace_mentions_mention ident rest Hne Hc).
Qed.

Lemma replace_mentions_drops_mention_witness :
  replace_mentions (js "hola " ++ mention (js "U0WIKIBOT") ++ js " ayuda")
  = js "hola " ++ replace_mentions (js " ayuda").
Proof.
  apply (replace_mentions_drops_mention (js "hola ") (js "U0WIKIBOT")
           (js " ayuda")).
  - vm_compute. repeat constructor; discriminate.
  - vm_compute. discriminate.
  - reflexivity.
Defined.

(** X15: The replacement only deletes: its result is a subsequence of the
    message, and a message without [<] is returned as it is. *)
Theorem replace_mentions_only_deletes s :
  subsequence (replace_mentions s) s
  /\ (Forall (fun c => c <> 60%N) s -> replace_mentions s = s).
Proof.
  split; [apply replace_mentions_from_subsequence|].
  intros H. rewrite <- (app_nil_r s) at 1.
  rewrite (replace_mentions_prefix s [] H). apply app_nil_r.
Qed.

(** ** index.ts: the listeners *)

Lemma hbind_returned {A B} (a : A) (w : list handler_event) (f : A -> H B) :
  hbind (Returned a, w) f = (fst (f a), w ++ snd (f a)).
Proof. unfold hbind. destruct (f a); reflexivity. Qed.

Lemma hbind_thrown {A B} (e : error) (w : list handler_event)
    (f : A -> H B) :
  hbind (Thrown e, w) f = (Thrown e, w).
Proof. reflexivity. Qed.

Lemma hbind_out_of_fuel {A B} (w : list handler_event) (f : A -> H B) :
  hbind (OutOfFuel, w) f = (OutOfFuel, w).
Proof. reflexivity. Qed.

Lemma htry_catch_returned {A} (a : A) (w : list handler_event)
    (h : error -> H A) :
  htry_catch (Returned a, w) h = (Returned a, w).
Proof. reflexivity. Qed.

Lemma htry_catch_thrown {A} (e : error) (w : list handler_event)
    (h : error -> H A) :
  htry_catch (Thrown e, w) h = (fst (h e), w ++ snd (h e)).
Proof. unfold htry_catch. destruct (h e); reflexivity. Qed.

Lemma swallow_call ev (answer : error + unit) :
  swallow (call ev answer) = (Returned tt, [ev]).
Proof. destruct answer as [e|[]]; reflexivity. Qed.

Lemma hfinally_swallow {A} (m : H A) ev (answer : error + unit) :
  fst m <> OutOfFuel ->
  hfinally m (swallow (call ev answer)) = (fst m, snd m ++ [ev]).
Proof.
  rewrite swallow_call. destruct m as [[a|e|] w]; cbn [fst snd hfinally];
    congruence.
Qed.

Lemma lift_pair {A} (r : outcome A) (w : list event) :
  lift (r, w) = (r, map Service w).
Proof. reflexivity. Qed.

Create Rewrite HintDb handler.
#[local] Hint Rewrite @hbind_returned @hbind_thrown @hbind_out_of_fuel
  @htry_catch_returned @htry_catch_thrown @swallow_call @lift_pair : handler.

(* Runs the operations of a listener that have reached a value. *)
Ltac hrun :=
  unfold emit, ret;
  repeat (progress (autorewrite with handler; cbn [fst snd map app])).

Section ListenerFacts.

Variable env : Env.
Variable notion : Notion.
Variable anthropic : Anthropic.
Variable slack : Slack.

Lemma answer_query_returns query :
  fst (answer_query env notion anthropic query) <> OutOfFuel.
Proof.
  unfold answer_query.
  destruct (search notion query) as [e|results] eqn:Hs.
  - assert (Ht : fst (searchNotion env notion query) = Thrown e)
      by (unfold searchNotion; rewrite Hs; run; reflexivity).
    destruct (searchNotion env notion query) as [r w]. cbn [fst] in Ht.
    subst r. discriminate.
  - pose proof (searchNotion_pages env notion query results Hs) as Hp.
    destruct (searchNotion env notion query) as [r w]. cbn [fst] in Hp.
    subst r. run. unfold generateAnswer.
    destruct (List.length _ =? 0); [discriminate|]. run.
    destruct (messages_create anthropic _); run; discriminate.
Qed.

(* The part of a [try] block up to the reply is the run of
   [answer_query]. *)
Lemma lift_answer_query {B} query (k : jsstring -> H B) :
  (notionPages <~ lift (searchNotion env notion query) ;;
   answer <~ lift (generateAnswer anthropic query notionPages) ;;
   k answer)
  = (answer <~ lift (answer_query env notion anthropic query) ;; k answer).
Proof.
  unfold answer_query.
  destruct (searchNotion env notion query) as [[pages|e|] w];
    unfold lift at 1 3; cbn [fst snd]; run; hrun; auto.
  destruct (generateAnswer anthropic query pages) as [[answer|e|] w'];
    unfold lift; cbn [fst snd]; hrun; auto.
  - destruct (k answer) as [r w'']. cbn [fst snd].
    now rewrite map_app, app_assoc.
  - now rewrite map_app.
  - now rewrite map_app.
Qed.

Lemma mention_try_run event query :
  mention_try env notion anthropic slack event query
  = (lift (emit (ConsoleLog (LF ++ js "[app_mention] Query: " ++ dquote
                             ++ query ++ dquote))) ;;;
     answer <~ lift (answer_query env notion anthropic query) ;;
     call (Say {| say_text := answer; say_thread_ts := reply_thread event |})
          (say slack {| say_text := answer;
                        say_thread_ts := reply_thread event |})).
Proof.
  unfold mention_try. rewrite lift_answer_query. unfold reply_thread.
  destruct (event_thread_ts event) as [[t|]|]; reflexivity.
Qed.

Lemma wiki_try_run command query :
  wiki_try env notion anthropic slack command query
  = (lift (emit (ConsoleLog (LF ++ js "[/wiki] Query: " ++ dquote ++ query
                             ++ dquote ++ js " (usuario: "
                             ++ user_name command ++ js ")"))) ;;;
     answer <~ lift (answer_query env notion anthropic query) ;;
     call (PostMessage
             {| post_channel := channel_id command;
                post_text := js "*<@" ++ user_id command
                             ++ js "> preguntó:* " ++ query ++ LF ++ LF
                             ++ answer;
                mrkdwn := true |})
          (chat_postMessage slack
             {| post_channel := channel_id command;
                post_text := js "*<@" ++ user_id command
                             ++ js "> preguntó:* " ++ query ++ LF ++ LF
                             ++ answer;
                mrkdwn := true |})).
Proof. unfold wiki_try. now rewrite lift_answer_query. Qed.

Lemma mention_attempt_returns event query :
  fst (htry_catch (mention_try env notion anthropic slack event query)
                  (mention_catch slack event)) <> OutOfFuel.
Proof.
  rewrite mention_try_run.
  pose proof (answer_query_returns query) as Hq.
  destruct (answer_query env notion anthropic query) as [[answer|e|] w];
    cbn [fst] in Hq; [| |congruence]; unfold mention_catch; hrun.
  - destruct (say slack _) as [e|[]]; unfold call; hrun; [|discriminate].
    destruct (say slack _) as [e'|[]]; hrun; discriminate.
  - destruct (say slack _) as [e'|[]]; unfold call; hrun; discriminate.
Qed.

End ListenerFacts.

Lemma generateAnswer_no_pages_or_one anthropic query page pages :
  model_calls (snd (generateAnswer anthropic query (page :: pages))) = 1
  /\ fst (generateAnswer anthropic query (page :: pages)) <> OutOfFuel.
Proof.
  rewrite generateAnswer_run.
  destruct (messages_create anthropic _) as [e|response]; run;
    split; (reflexivity || discriminate).
Qed.

Lemma model_calls_app (w1 w2 : list event) :
  model_calls (w1 ++ w2) = model_calls w1 + model_calls w2.
Proof. unfold model_calls. now rewrite filter_app, length_app. Qed.

Lemma model_calls_fetches w : Forall is_fetch w -> model_calls w = 0.
Proof.
  induction 1 as [|ev w Hev _ IH]; auto.
  destruct ev; try destruct Hev. exact IH.
Qed.

Lemma searchNotion_loop_model_calls notion results pages :
  model_calls (snd (searchNotion_loop notion results pages)) = 0.
Proof.
  revert pages.
  induction results as [|[result|i] rest IH]; intros pages;
    cbn [searchNotion_loop]; auto.
  pose proof (model_calls_fetches _
                (extractBlockContent_fuel_events notion 3
                   (page_id_of result) 0)) as Hs.
  fold (extractBlockContent notion (page_id_of result) 0) in Hs.
  destruct (extractBlockContent notion (page_id_of result) 0)
    as [[c|e|] w]; cbn [snd] in Hs; run;
    [destruct (truthy (trim c)); run| |];
    rewrite ?model_calls_app, ?Hs, ?IH; reflexivity.
Qed.

Lemma searchNotion_model_calls env notion query :
  model_calls (snd (searchNotion env notion query)) = 0.
Proof.
  unfold searchNotion. destruct (search notion query) as [e|results]; run;
    [reflexivity|].
  now rewrite !model_calls_app, searchNotion_loop_model_calls.
Qed.

(** X16: Between the query and the reply, the model is called only when the
    search gave a page: with no page kept, the reply is the fixed "no
    information" text and no model call is made; with pages, there is
    exactly one call. *)
Theorem answer_query_model_calls env notion anthropic query results :
  search notion query = inr results ->
  model_calls (snd (answer_query env notion anthropic query))
  = match flat_map (rendering notion) (candidates env results) with
    | [] => 0
    | _ :: _ => 1
    end
  /\ (flat_map (rendering notion) (candidates env results) = [] ->
      fst (answer_query env notion anthropic query)
      = Returned NO_INFORMATION).
Proof.
  intros Hs. unfold answer_query.
  pose proof (searchNotion_pages env notion query results Hs) as Hp.
  pose proof (searchNotion_model_calls env notion query) as Hm.
  destruct (searchNotion env notion query) as [r w]. cbn [fst snd] in Hp, Hm.
  subst r. run. rewrite model_calls_app, Hm.
  destruct (flat_map (rendering notion) (candidates env results))
    as [|page pages].
  - split; [reflexivity|]. reflexivity.
  - split; [|discriminate].
    destruct (generateAnswer_no_pages_or_one anthropic query page pages)
      as [H1 _]. exact H1.
Qed.

Lemma answer_query_model_calls_witness :
  model_calls (snd (answer_query wiki_env wiki_store chatty_model
                      (js "vacaciones")))
  = match flat_map (rendering wiki_store)
            (candidates wiki_env wiki_results) with
    | [] => 0
    | _ :: _ => 1
    end.
Proof.
  exact (proj1 (answer_query_model_calls wiki_env wiki_store chatty_model
                  (js "vacaciones") wiki_results eq_refl)).
Defined.

Section ListenerTheorems.

Variable env : Env.
Variable notion : Notion.
Variable anthropic : Anthropic.
Variable slack : Slack.

Lemma filter_is_say_service (w : list event) :
  filter is_say (map Service w) = [].
Proof. induction w; simpl; auto. Qed.

Lemma mention_attempt_says event query :
  existsb is_say
    (snd (htry_catch (mention_try env notion anthropic slack event query)
                     (mention_catch slack event))) = true.
Proof.
  rewrite mention_try_run.
  pose proof (answer_query_returns env notion anthropic query) as Hq.
  destruct (answer_query env notion anthropic query) as [[answer|e|] w];
    cbn [fst] in Hq; [| |congruence]; unfold mention_catch; hrun.
  - destruct (say slack {| say_text := answer;
                           say_thread_ts := reply_thread event |})
      as [e|[]]; unfold call; hrun;
      cbn [existsb is_say orb]; rewrite !existsb_app;
      cbn [existsb is_say orb]; now rewrite ?orb_true_r.
  - destruct (say slack _) as [e'|[]]; unfold call; hrun;
      cbn [existsb is_say orb]; rewrite !existsb_app;
      cbn [existsb is_say orb]; now rewrite ?orb_true_r.
Qed.

Lemma app_mention_asked event :
  trim (replace_mentions (event_text event)) <> [] ->
  app_mention env notion anthropic slack event
  = (fst (htry_catch
            (mention_try env notion anthropic slack event
               (trim (replace_mentions (event_text event))))
            (mention_catch slack event)),
     ReactionsAdd (thinking_face event)
     :: snd (htry_catch
               (mention_try env notion anthropic slack event
                  (trim (replace_mentions (event_text event))))
               (mention_catch slack event))
        ++ [ReactionsRemove (thinking_face event)]).
Proof.
  intros Hq. unfold app_mention. apply truthy_true in Hq. rewrite Hq.
  cbn [negb]. rewrite hfinally_swallow by apply mention_attempt_returns.
  hrun. reflexivity.
Qed.

(** X17: A mention with a question is bracketed by the reaction: the listener
    first adds the "thinking_face" reaction and, whatever happens in
    between (an answer, a failure of the search or of the model, even a
    reply Slack refuses), its last act is to remove it; in between it
    tries at least one reply. *)
Theorem app_mention_reaction_bracket event :
  trim (replace_mentions (event_text event)) <> [] ->
  exists w,
    snd (app_mention env notion anthropic slack event)
    = ReactionsAdd (thinking_face event)
      :: w ++ [ReactionsRemove (thinking_face event)]
    /\ existsb is_say w = true.
Proof.
  intros Hq. rewrite (app_mention_asked event Hq). cbn [snd].
  eexists. split; [reflexivity|]. apply mention_attempt_says.
Qed.

(** X18: When the search or the model throws, the listener does not: it logs
    the error, replies once, with the fixed error text in the thread of
    the mention, and returns. *)
Theorem app_mention_failure_answered event e :
  trim (replace_mentions (event_text event)) <> [] ->
  fst (answer_query env notion anthropic
         (trim (replace_mentions (event_text event)))) = Thrown e ->
  say slack {| say_text := ERROR_TEXT; say_thread_ts := event_ts event |}
  = inr tt ->
  fst (app_mention env notion anthropic slack event) = Returned tt
  /\ filter is_say (snd (app_mention env notion anthropic slack event))
     = [Say {| say_text := ERROR_TEXT; say_thread_ts := event_ts event |}]
  /\ In (Service (ConsoleError (js "[app_mention] Error:") e))
        (snd (app_mention env notion anthropic slack event)).
Proof.
  intros Hq He Hsay. rewrite (app_mention_asked event Hq), mention_try_run.
  destruct (answer_query env notion anthropic _) as [r w]. cbn [fst] in He.
  subst r. unfold mention_catch. hrun. rewrite Hsay. unfold call. hrun.
  split; [reflexivity|]. split.
  - cbn [filter is_say]. rewrite !filter_app, filter_is_say_service.
    reflexivity.
  - right. right. apply in_or_app. left. apply in_or_app. right.
    left. reflexivity.
Qed.

(** X19: When the search and the model answer, the listener replies once, with
    the answer, in the thread of the mention when it has one and under
    the mention itself otherwise. *)
Theorem app_mention_answer_in_thread event answer :
  trim (replace_mentions (event_text event)) <> [] ->
  fst (answer_query env notion anthropic
         (trim (replace_mentions (event_text event)))) = Returned answer ->
  say slack {| say_text := answer; say_thread_ts := reply_thread event |}
  = inr tt ->
  fst (app_mention env notion anthropic slack event) = Returned tt
  /\ filter is_say (snd (app_mention env notion anthropic slack event))
     = [Say {| say_text := answer; say_thread_ts := reply_thread event |}].
Proof.
  intros Hq Ha Hsay. rewrite (app_mention_asked event Hq), mention_try_run.
  destruct (answer_query env notion anthropic _) as [r w]. cbn [fst] in Ha.
  subst r. hrun. rewrite Hsay. unfold call. hrun.
  split; [reflexivity|].
  cbn [filter is_say]. rewrite !filter_app, filter_is_say_service.
  reflexivity.
Qed.

(** X20: A message that is only a mention, with white space around it, asks
    nothing: the listener replies with the help text under the message
    and does nothing else (no reaction, no search, no model call). *)
Theorem app_mention_only_mention event before ident after :
  event_text event = before ++ mention ident ++ after ->
  blank before = true ->
  ident <> [] ->
  forallb is_mention_char ident = true ->
  blank after = true ->
  snd (app_mention env notion anthropic slack event)
  = [Say {| say_text := MENTION_HELP; say_thread_ts := event_ts event |}].
Proof.
  intros Ht Hb Hne Hc Ha. unfold app_mention.
  rewrite Ht, (replace_mentions_prefix before _ (blank_no_lt before Hb)),
    (replace_mentions_mention ident after Hne Hc).
  rewrite <- (app_nil_r after) at 1.
  rewrite (replace_mentions_prefix after [] (blank_no_lt after Ha)).
  cbn [replace_mentions replace_mentions_from]. rewrite app_nil_r.
  assert (Hblank : trim (before ++ after) = []).
  { apply trim_nil. now rewrite blank_app, Hb, Ha. }
  rewrite Hblank. cbn [truthy negb].
  destruct (say slack _) as [e|[]]; reflexivity.
Qed.

(** X21: The [/wiki] command with a question acknowledges first; when the
    search or the model throws, nothing is posted to the channel: the
    error is logged and the user alone gets the fixed error text. *)
Theorem wiki_command_failure_private command e :
  trim (command_text command) <> [] ->
  ack slack = inr tt ->
  fst (answer_query env notion anthropic (trim (command_text command)))
  = Thrown e ->
  exists w,
    snd (wiki_command env notion anthropic slack command)
    = Ack :: map Service w
      ++ [Service (ConsoleError (js "[/wiki] Error:") e);
          Respond {| response_type := js "ephemeral";
                     respond_text := ERROR_TEXT |}].
Proof.
  intros Hq Hack He. unfold wiki_command. rewrite Hack.
  apply truthy_true in Hq. rewrite Hq. cbn [negb].
  rewrite wiki_try_run.
  destruct (answer_query env notion anthropic _) as [r w]. cbn [fst] in He.
  subst r. unfold wiki_catch, call. hrun.
  eexists (_ :: w). cbn [map app]. f_equal. f_equal.
  destruct (respond slack _) as [e'|[]]; reflexivity.
Qed.

(** X22: When the search and the model answer and Slack accepts the
    post, the [/wiki] command returns after one message to the channel of
    the command, its last act: the asker's mention, the trimmed question,
    a blank line and the answer; nothing is sent to the asker alone. *)
Theorem wiki_command_posts_answer command answer :
  trim (command_text command) <> [] ->
  ack slack = inr tt ->
  fst (answer_query env notion anthropic (trim (command_text command)))
  = Returned answer ->
  chat_postMessage slack
    {| post_channel := channel_id command;
       post_text := js "*<@" ++ user_id command ++ js "> preguntó:* "
                    ++ trim (command_text command) ++ LF ++ LF ++ answer;
       mrkdwn := true |} = inr tt ->
  exists w,
    wiki_command env notion anthropic slack command
    = (Returned tt,
       Ack :: map Service w
       ++ [PostMessage
             {| post_channel := channel_id command;
                post_text := js "*<@" ++ user_id command
                             ++ js "> preguntó:* "
                             ++ trim (command_text command) ++ LF ++ LF
                             ++ answer;
                mrkdwn := true |}]).
Proof.
  intros Hq Hack Ha Hpost. unfold wiki_command. rewrite Hack.
  apply truthy_true in Hq. rewrite Hq. cbn [negb].
  rewrite wiki_try_run.
  destruct (answer_query env notion anthropic _) as [r w]. cbn [fst] in Ha.
  subst r. hrun. rewrite Hpost. unfold call. hrun.
  eexists (_ :: w). cbn [map app]. reflexivity.
Qed.

End ListenerTheorems.

Lemma app_mention_reaction_bracket_witness :
  exists w,
    snd (app_mention wiki_env down_store chatty_model open_slack hello_event)
    = ReactionsAdd (thinking_face hello_event)
      :: w ++ [ReactionsRemove (thinking_face hello_event)]
    /\ existsb is_say w = true.
Proof.
  apply (app_mention_reaction_bracket wiki_env down_store chatty_model
           open_slack hello_event).
  vm_compute. discriminate.
Defined.

Lemma app_mention_failure_answered_witness :
  fst (app_mention wiki_env down_store chatty_model open_slack hello_event)
  = Returned tt
  /\ filter is_say
       (snd (app_mention wiki_env down_store chatty_model open_slack
               hello_event))
     = [Say {| say_text := ERROR_TEXT;
               say_thread_ts := event_ts hello_event |}]
  /\ In (Service (ConsoleError (js "[app_mention] Error:")
                    (js "unreachable")))
        (snd (app_mention wiki_env down_store chatty_model open_slack
                hello_event)).
Proof.
  apply (app_mention_failure_answered wiki_env down_store chatty_model
           open_slack hello_event (js "unreachable")).
  - vm_compute. discriminate.
  - vm_compute. reflexivity.
  - reflexivity.
Defined.

Lemma app_mention_answer_in_thread_witness :
  fst (app_mention wiki_env wiki_store chatty_model open_slack hello_event)
  = Returned tt
  /\ filter is_say
       (snd (app_mention wiki_env wiki_store chatty_model open_slack
               hello_event))
     = [Say {| say_text := js "Hola";
               say_thread_ts := reply_thread hello_event |}].
Proof.
  apply (app_mention_answer_in_thread wiki_env wiki_store chatty_model
           open_slack hello_event (js "Hola")).
  - vm_compute. discriminate.
  - vm_compute. reflexivity.
  - reflexivity.
Defined.

Lemma app_mention_only_mention_witness :
  snd (app_mention wiki_env wiki_store chatty_model open_slack
         {| event_text := js " " ++ mention (js "U0WIKIBOT") ++ js "  ";
            event_ts := js "1700000000.000100";
            event_channel := js "C0GENERAL";
            event_thread_ts := None |})
  = [Say {| say_text := MENTION_HELP;
            say_thread_ts := js "1700000000.000100" |}].
Proof.
  apply (app_mention_only_mention wiki_env wiki_store chatty_model open_slack
           {| event_text := js " " ++ mention (js "U0WIKIBOT") ++ js "  ";
              event_ts := js "1700000000.000100";
              event_channel := js "C0GENERAL";
              event_thread_ts := None |}
           (js " ") (js "U0WIKIBOT") (js "  ")).
  - reflexivity.
  - reflexivity.
  - vm_compute. discriminate.
  - reflexivity.
  - reflexivity.
Defined.

Lemma wiki_command_failure_private_witness :
  exists w,
    snd (wiki_command wiki_env down_store chatty_model open_slack
           hello_command)
    = Ack :: map Service w
      ++ [Service (ConsoleError (js "[/wiki] Error:") (js "unreachable"));
          Respond {| response_type := js "ephemeral";
                     respond_text := ERROR_TEXT |}].
Proof.
  apply (wiki_command_failure_private wiki_env down_store chatty_model
           open_slack hello_command (js "unreachable")).
  - vm_compute. discriminate.
  - reflexivity.
  - vm_compute. reflexivity.
Defined.

Lemma wiki_command_posts_answer_witness :
  exists w,
    wiki_command wiki_env wiki_store chatty_model open_slack hello_command
    = (Returned tt,
       Ack :: map Service w
       ++ [PostMessage
             {| post_channel := channel_id hello_command;
                post_text := js "*<@" ++ user_id hello_command
                             ++ js "> preguntó:* "
                             ++ trim (command_text hello_command) ++ LF ++ LF
                             ++ js "Hola";
                mrkdwn := true |}]).
Proof.
  apply (wiki_command_posts_answer wiki_env wiki_store chatty_model
           open_slack hello_command (js "Hola")).
  - vm_compute. discriminate.
  - reflexivity.
  - vm_compute. reflexivity.
  - reflexivity.
Defined.
